(** * The agent's tools ([src/tools.ts])

    A shallow embedding of [executeSQLQuery] and [getDatabaseSchema] together
    with the JavaScript built-ins they call ([trim], [toLowerCase],
    [startsWith], [includes], [Math.min], [||], template literals and
    [JSON.stringify]), followed by the stub tools and the scheduling tools
    ([scheduleTask], [getScheduledTasks], [cancelScheduledTask]) over the
    agent's scheduling calls.

    Conventions of the embedding.
    - A JavaScript string is a sequence of code units; the embedding covers the
      strings whose code units lie in U+0000..U+00FF, one [ascii] per code
      unit.  On that range [trim] and [toLowerCase] are modelled exactly.
    - A JavaScript number is modelled by an integer ([Z]); fractional values,
      NaN and the infinities are outside the embedding of the tools.  The
      decimal rendering of an integer is the one of
      [Number.prototype.toString] for magnitudes up to 2^53, where every
      integer is a number and is printed with all its digits; statements
      that depend on the digits of a number stay within that range.
    - The storage handle [agent.ctx.storage.sql] is an external capability: it
      is a parameter of the development, and the agent of the current session
      is taken to exist.  Every call of
      [storage.exec(q).toArray()] is recorded in the world, so that "the
      capability was (not) invoked" is a statement about the recorded calls.
    - [console.error] writes to a log no caller can observe; it is left out. *)

From Stdlib Require Import String Ascii List ZArith QArith Qminmax Bool Lia DecimalString.
Import ListNotations.

Local Open Scope string_scope.
Local Open Scope Z_scope.

(** ** JavaScript strings *)

Module JsString.

Definition code (c : ascii) : N := N_of_ascii c.

(** WhiteSpace and LineTerminator code units below U+0100:
    TAB, LF, VT, FF, CR, SP and NBSP. *)
Definition isWhiteSpace (c : ascii) : bool :=
  let n := code c in
  ((9 <=? n) && (n <=? 13) || (n =? 32) || (n =? 160))%N.

Fixpoint trimStart (s : string) : string :=
  match s with
  | EmptyString => EmptyString
  | String c s' => if isWhiteSpace c then trimStart s' else s
  end.

Fixpoint trimEnd (s : string) : string :=
  match s with
  | EmptyString => EmptyString
  | String c s' =>
      match trimEnd s' with
      | EmptyString => if isWhiteSpace c then EmptyString else String c EmptyString
      | r => String c r
      end
  end.

(** [String.prototype.trim] *)
Definition trim (s : string) : string := trimEnd (trimStart s).

(** Lower-case mapping of one code unit: [A-Z] and the Latin-1 capitals
    U+00C0..U+00DE (without the multiplication sign U+00D7) move up by 32. *)
Definition toLowerCaseUnit (c : ascii) : ascii :=
  let n := code c in
  if ((65 <=? n) && (n <=? 90)
      || (192 <=? n) && (n <=? 222) && negb (n =? 215))%N
  then ascii_of_N (n + 32) else c.

(** [String.prototype.toLowerCase] *)
Fixpoint toLowerCase (s : string) : string :=
  match s with
  | EmptyString => EmptyString
  | String c s' => String (toLowerCaseUnit c) (toLowerCase s')
  end.

(** [s.startsWith(p)] *)
Fixpoint startsWith (s p : string) {struct p} : bool :=
  match p, s with
  | EmptyString, _ => true
  | String _ _, EmptyString => false
  | String b p', String a s' => Ascii.eqb a b && startsWith s' p'
  end.

(** [s.includes(p)]: [p] starts at some position of [s]. *)
Fixpoint includes (s p : string) : bool :=
  startsWith s p ||
  match s with
  | EmptyString => false
  | String _ s' => includes s' p
  end.

End JsString.
Import JsString.

(** ** JavaScript numbers (integers) *)

(** [Math.min(a, b)] *)
Definition Math_min (a b : Z) : Z := Z.min a b.

(** [a || b] on numbers: [0] is the falsy number. *)
Definition or_default (a b : Z) : Z := if a =? 0 then b else a.

(** [String(n)] as used by a template literal, for an integer [n] of
    magnitude up to 2^53 (beyond, JavaScript prints the shortest digits that
    read back to the number, and an exponent from 10^21). *)
Definition Number_toString (n : Z) : string :=
  NilZero.string_of_int (Z.to_int n).

(** ** JavaScript values and [JSON.stringify] *)

#[warnings="-register-all"]
Inductive value : Type :=
| VUndefined
| VNull
| VBool (b : bool)
| VNum (n : Z)
| VStr (s : string)
| VArr (items : list value)
| VObj (props : list (string * value)).

(** An object given by its own enumerable properties, in property order.
    The rows a cursor materialises are such objects. *)
Definition object : Type := list (string * value).

(** [o.k]: the value of the property, [undefined] when [o] has none. *)
Fixpoint get_prop (o : object) (k : string) : value :=
  match o with
  | [] => VUndefined
  | (k', v) :: o' => if String.eqb k' k then v else get_prop o' k
  end.

Module Json.

Definition LF : string := String "010"%char EmptyString.
Definition dquote : string := String "034"%char EmptyString.

Definition hexDigit (n : N) : ascii :=
  (if n <? 10 then ascii_of_N (48 + n) else ascii_of_N (87 + n))%N.

(** Escape of one code unit inside a JSON string literal. *)
Definition escapeUnit (c : ascii) : string :=
  let n := code c in
  (if n =? 8 then "\b"
   else if n =? 9 then "\t"
   else if n =? 10 then "\n"
   else if n =? 12 then "\f"
   else if n =? 13 then "\r"
   else if n =? 34 then "\" ++ dquote
   else if n =? 92 then "\\"
   else if n <? 32 then
     "\u00" ++ String (hexDigit (n / 16)) (String (hexDigit (n mod 16)) EmptyString)
   else String c EmptyString)%N%string.

Fixpoint escape (s : string) : string :=
  match s with
  | EmptyString => EmptyString
  | String c s' => escapeUnit c ++ escape s'
  end.

(** QuoteJSONString *)
Definition quote (s : string) : string := dquote ++ escape s ++ dquote.

Fixpoint join (sep : string) (parts : list string) : string :=
  match parts with
  | [] => EmptyString
  | [p] => p
  | p :: rest => p ++ sep ++ join sep rest
  end.

(** The text of an array or an object from the texts of its members:
    empty brackets when there is none, otherwise one member per line at
    [indent], the closing bracket at [stepback]. *)
Definition wrap (opening closing stepback indent : string)
           (parts : list string) : string :=
  match parts with
  | [] => opening ++ closing
  | _ => opening ++ LF ++ indent ++ join ("," ++ LF ++ indent) parts
         ++ LF ++ stepback ++ closing
  end.

Definition gap : string := "  ".

(** SerializeJSONProperty with a gap of two spaces.  [None] is the
    [undefined] result: such a property is left out of an object and
    written [null] in an array. *)
Fixpoint serialize (stepback : string) (v : value) : option string :=
  match v with
  | VUndefined => None
  | VNull => Some "null"
  | VBool b => Some (if b then "true" else "false")
  | VNum n => Some (Number_toString n)
  | VStr s => Some (quote s)
  | VArr items =>
      let indent := stepback ++ gap in
      Some (wrap "[" "]" stepback indent
              (map (fun x => match serialize indent x with
                             | Some t => t
                             | None => "null"
                             end) items))
  | VObj props =>
      let indent := stepback ++ gap in
      Some (wrap "{" "}" stepback indent
              (flat_map (fun kv => let '(k, x) := kv in
                                   match serialize indent x with
                                   | Some t => [quote k ++ ": " ++ t]
                                   | None => []
                                   end) props))
  end.

End Json.

(** [JSON.stringify(v, null, 2)]; the result is a string or [undefined]. *)
Definition JSON_stringify (v : value) : value :=
  match Json.serialize EmptyString v with
  | Some t => VStr t
  | None => VUndefined
  end.

(** ** Effects: the storage capability, thrown values and [try]/[catch] *)

(** What a [throw] carries: an [Error] instance with its [message], or any
    other value. *)
Inductive Thrown : Type :=
| ErrorInstance (message : string)
| NonError (v : value).

Inductive completion (A : Type) : Type :=
| Normal (a : A)
| Throw (e : Thrown).
Arguments Normal {A} a.
Arguments Throw {A} e.

Section Tools.

(** The durable storage behind [agent.ctx.storage.sql], and
    [storage.exec(q).toArray()]: it materialises the rows of the cursor or
    throws, and may change the storage. *)
Variable DB : Type.
Variable sql_exec : DB -> string -> completion (list object) * DB.

Record World : Type := mkWorld {
  db : DB;
  sql_calls : list string   (* texts handed to [storage.exec], oldest first *)
}.

Definition M (A : Type) : Type := World -> completion A * World.

Definition ret {A} (a : A) : M A := fun w => (Normal a, w).

Definition bind {A B} (c : M A) (k : A -> M B) : M B :=
  fun w =>
    match c w with
    | (Normal a, w') => k a w'
    | (Throw e, w') => (Throw e, w')
    end.

Definition try_catch {A} (body : M A) (handler : Thrown -> M A) : M A :=
  fun w =>
    match body w with
    | (Normal a, w') => (Normal a, w')
    | (Throw e, w') => handler e w'
    end.

Notation "x <- c ;; k" := (bind c (fun x => k))
  (at level 61, c at next level, right associativity).

Definition storage_exec (q : string) : M (list object) :=
  fun w =>
    let (r, d) := sql_exec (db w) q in
    (r, {| db := d; sql_calls := sql_calls w ++ [q] |}).

(** [error instanceof Error ? error.message : 'Unknown error'] *)
Definition error_text (error : Thrown) : string :=
  match error with
  | ErrorInstance message => message
  | NonError _ => "Unknown error"
  end.

(** *** [getDatabaseSchema] *)

Definition schemaQuery : string :=
  "SELECT name, sql FROM sqlite_master WHERE type='table' ORDER BY name".

(** [(table) => ({ table: table.name, createStatement: table.sql })] *)
Definition schemaEntry (table : object) : value :=
  VObj [("table", get_prop table "name");
        ("createStatement", get_prop table "sql")].

Definition getDatabaseSchema : M value :=
  try_catch
    (tables <- storage_exec schemaQuery ;;
     if Nat.eqb (List.length tables) 0 then
       ret (VStr "No tables found in database.")
     else
       let schemaInfo := map schemaEntry tables in
       ret (JSON_stringify
              (VObj [("database", VStr "SQLite (Cloudflare Durable Object)");
                     ("tableCount", VNum (Z.of_nat (List.length tables)));
                     ("tables", VArr schemaInfo)])))
    (fun error => ret (VStr ("Error getting schema: " ++ error_text error))).

(** *** [executeSQLQuery] *)

(** [inputSchema]: [limit: z.number().optional().default(100)] *)
Definition parse_limit (limit : option Z) : Z :=
  match limit with
  | Some l => l
  | None => 100
  end.

Definition rejection : string :=
  "Error: Only SELECT queries are allowed for security reasons. Please start your query with SELECT.".

Definition normalize (query : string) : string := toLowerCase (trim query).

(** [Math.min(limit || 100, 500)] *)
Definition safeLimit (limit : Z) : Z := Math_min (or_default limit 100) 500.

Definition limitedQuery (query : string) (limit : Z) : string :=
  if includes (normalize query) "limit"
  then query
  else query ++ " LIMIT " ++ Number_toString (safeLimit limit).

Definition executeSQLQuery (query : string) (limit : Z) : M value :=
  try_catch
    (let normalizedQuery := normalize query in
     if negb (startsWith normalizedQuery "select") then
       ret (VStr rejection)
     else
       let limitedQuery := limitedQuery query limit in
       rows <- storage_exec limitedQuery ;;
       if Nat.eqb (List.length rows) 0 then
         ret (JSON_stringify
                (VObj [("rowCount", VNum 0);
                       ("rows", VArr []);
                       ("query", VStr limitedQuery);
                       ("message", VStr "Query executed successfully. No results returned.")]))
       else
         ret (JSON_stringify
                (VObj [("rowCount", VNum (Z.of_nat (List.length rows)));
                       ("rows", VArr (map VObj rows));
                       ("query", VStr limitedQuery)])))
    (fun error => ret (VStr ("SQL Error: " ++ error_text error))).

(** The tool as the runtime calls it: arguments go through [inputSchema]. *)
Definition executeSQLQuery_tool (query : string) (limit : option Z) : M value :=
  executeSQLQuery query (parse_limit limit).

End Tools.

Arguments mkWorld {DB} db sql_calls.
Arguments db {DB} w.
Arguments sql_calls {DB} w.
Arguments ret {DB A} a w.
Arguments storage_exec {DB} sql_exec q w.
Arguments getDatabaseSchema {DB} sql_exec w.
Arguments executeSQLQuery {DB} sql_exec query limit w.
Arguments executeSQLQuery_tool {DB} sql_exec query limit w.

(** ** The effective limit on fractional numbers

    [Math.min(limit || 100, 500)] once more, on any finite number written as
    a rational: the schema of the tool admits fractional limits, and [||]
    and [Math.min] act on them as on integers. *)
Definition safeLimit_number (limit : Q) : Q :=
  Qmin (if Qeq_bool limit 0 then 100%Q else limit) 500%Q.

(** ** The two result objects of [executeSQLQuery]

    The object literal the tool serialises for an empty and for a non-empty
    row sequence, named so that statements can refer to them. *)
Definition emptyResult (text : string) : value :=
  VObj [("rowCount", VNum 0);
        ("rows", VArr []);
        ("query", VStr text);
        ("message", VStr "Query executed successfully. No results returned.")].

Definition rowsResult (rows : list object) (text : string) : value :=
  VObj [("rowCount", VNum (Z.of_nat (List.length rows)));
        ("rows", VArr (map VObj rows));
        ("query", VStr text)].

(** ** A small storage to run the tools on *)

Module Demo.

Definition tables : list object :=
  [ [("name", VStr "contacts");
     ("sql", VStr "CREATE TABLE contacts (id INTEGER, name TEXT)")];
    [("name", VStr "notes");
     ("sql", VStr "CREATE TABLE notes (id INTEGER, body TEXT)")] ].

Definition contacts : list object :=
  [ [("id", VNum 1); ("name", VStr "Ada")];
    [("id", VNum 2); ("name", VStr "Grace")] ].

(** The storage counts the statements it has run.  It knows the schema
    query and the table [contacts], has no rows in [notes], and fails on
    anything that mentions [nosuch]. *)
Definition exec (d : nat) (q : string) : completion (list object) * nat :=
  (if String.eqb q schemaQuery then Normal tables
   else if includes (toLowerCase q) "nosuch"
        then Throw (ErrorInstance "no such table: nosuch")
   else if includes (toLowerCase q) "contacts" then Normal contacts
   else Normal [],
   S d).

(** A storage without any table: every statement returns no row. *)
Definition bare (d : nat) (q : string) : completion (list object) * nat :=
  (Normal [], S d).

(** A storage that fails on every statement by throwing the string [boom],
    a value that is no [Error]. *)
Definition throwing (d : nat) (q : string) : completion (list object) * nat :=
  (Throw (NonError (VStr "boom")), S d).

Definition world : World nat := mkWorld 0%nat [].

End Demo.

(** ** The stub tools *)

(** [getWeatherInformation]: [`The weather in ${city} is sunny`] *)
Definition getWeatherInformation (city : string) : string :=
  "The weather in " ++ city ++ " is sunny".

(** [getLocalTime] *)
Definition getLocalTime (location : string) : string := "10am".

(** ** The scheduling tools

    [scheduleTask], [getScheduledTasks] and [cancelScheduledTask] put a caught
    value into a template literal, so what is thrown is modelled with all
    that its string conversion reads: an [Error] has a [name] and a
    [message]. *)

Module Scheduling.

Inductive Exception : Type :=
| ErrorObject (name message : string)
| ThrownValue (v : value).

Inductive outcome (A : Type) : Type :=
| Returns (a : A)
| Throws (e : Exception).
Arguments Returns {A} a.
Arguments Throws {A} e.

(** [new Error(msg)] *)
Definition new_Error (msg : string) : Exception := ErrorObject "Error" msg.

(** ToString of a value; an array joins the conversions of its items with
    commas, writing nothing for [null] and [undefined]. *)
Fixpoint String_of_value (v : value) : string :=
  match v with
  | VUndefined => "undefined"
  | VNull => "null"
  | VBool b => if b then "true" else "false"
  | VNum n => Number_toString n
  | VStr s => s
  | VArr items =>
      Json.join ","
        (map (fun x => match x with
                       | VUndefined | VNull => EmptyString
                       | _ => String_of_value x
                       end) items)
  | VObj _ => "[object Object]"
  end.

(** [`${error}`]: [Error.prototype.toString] for an [Error], ToString for
    any other thrown value. *)
Definition String_of_thrown (error : Exception) : string :=
  match error with
  | ErrorObject name message =>
      if String.eqb name "" then message
      else if String.eqb message "" then name
      else name ++ ": " ++ message
  | ThrownValue v => String_of_value v
  end.

(** The [when] argument of [scheduleTask] as the tool reads it: the tag
    [type] and the three fields, each of which may be absent.  The schema
    that validates it ([scheduleSchema] of the agents library) admits the
    tags [scheduled], [delayed], [cron] and [no-schedule]. *)
Record When (Date : Type) : Type := mkWhen {
  type : string;
  date : option Date;
  delayInSeconds : option Z;
  cron : option string
}.
Arguments mkWhen {Date} type date delayInSeconds cron.
Arguments type {Date} w.
Arguments date {Date} w.
Arguments delayInSeconds {Date} w.
Arguments cron {Date} w.

(** The first argument of [agent.schedule]: a date, a number of seconds, a
    cron expression, or [undefined] when the field read was absent. *)
Inductive ScheduleInput (Date : Type) : Type :=
| InputDate (d : Date)
| InputNumber (n : Z)
| InputString (s : string)
| InputUndefined.
Arguments InputDate {Date} d.
Arguments InputNumber {Date} n.
Arguments InputString {Date} s.
Arguments InputUndefined {Date}.

(** A call made on the agent. *)
Inductive AgentCall (Date : Type) : Type :=
| CallSchedule (input : ScheduleInput Date) (callback : string) (payload : string)
| CallGetSchedules
| CallCancelSchedule (id : string).
Arguments CallSchedule {Date} input callback payload.
Arguments CallGetSchedules {Date}.
Arguments CallCancelSchedule {Date} id.

Section Agent.

(** Dates and their string conversion ([Date.prototype.toString], which
    depends on the time zone of the host). *)
Variable Date : Type.
Variable Date_toString : Date -> string.

(** The agent of the session with the schedules it keeps.
    - [agent.schedule(input, callback, payload)]: the tool does not await the
      call, so only its synchronous completion matters.
    - [agent.getSchedules()]: the array of schedules, [None] standing for
      [null] or [undefined].
    - [await agent.cancelSchedule(id)]: whether a schedule was cancelled. *)
Variable Agent : Type.
Variable agent_schedule :
  Agent -> ScheduleInput Date -> string -> string -> outcome unit * Agent.
Variable agent_getSchedules : Agent -> outcome (option (list object)) * Agent.
Variable agent_cancelSchedule : Agent -> string -> outcome bool * Agent.

Record Session : Type := mkSession {
  agent : Agent;
  agent_calls : list (AgentCall Date)   (* calls made on the agent, oldest first *)
}.

Definition T (A : Type) : Type := Session -> outcome A * Session.

Definition ret {A} (a : A) : T A := fun s => (Returns a, s).

Definition throw {A} (e : Exception) : T A := fun s => (Throws e, s).

Definition bind {A B} (c : T A) (k : A -> T B) : T B :=
  fun s =>
    match c s with
    | (Returns a, s') => k a s'
    | (Throws e, s') => (Throws e, s')
    end.

Definition try_catch {A} (body : T A) (handler : Exception -> T A) : T A :=
  fun s =>
    match body s with
    | (Returns a, s') => (Returns a, s')
    | (Throws e, s') => handler e s'
    end.

Notation "x <- c ;; k" := (bind c (fun x => k))
  (at level 61, c at next level, right associativity).

Definition schedule (input : ScheduleInput Date) (callback payload : string) : T unit :=
  fun s =>
    let (r, a) := agent_schedule (agent s) input callback payload in
    (r, {| agent := a;
           agent_calls := agent_calls s ++ [CallSchedule input callback payload] |}).

Definition getSchedules : T (option (list object)) :=
  fun s =>
    let (r, a) := agent_getSchedules (agent s) in
    (r, {| agent := a; agent_calls := agent_calls s ++ [CallGetSchedules] |}).

Definition cancelSchedule (id : string) : T bool :=
  fun s =>
    let (r, a) := agent_cancelSchedule (agent s) id in
    (r, {| agent := a; agent_calls := agent_calls s ++ [CallCancelSchedule id] |}).

(** [`${input}`] *)
Definition String_of_input (input : ScheduleInput Date) : string :=
  match input with
  | InputDate d => Date_toString d
  | InputNumber n => Number_toString n
  | InputString s => s
  | InputUndefined => "undefined"
  end.

(** The local [throwError] of [scheduleTask]. *)
Definition throwError {A} (msg : string) : T A := throw (new_Error msg).

(** The conditional expression that chooses [input]. *)
Definition select_input (when : When Date) : T (ScheduleInput Date) :=
  if String.eqb (type when) "scheduled" then
    ret match date when with Some d => InputDate d | None => InputUndefined end
  else if String.eqb (type when) "delayed" then
    ret match delayInSeconds when with Some n => InputNumber n | None => InputUndefined end
  else if String.eqb (type when) "cron" then
    ret match cron when with Some c => InputString c | None => InputUndefined end
  else throwError "not a valid schedule input".

(** [scheduleTask].  The [try] block either falls through ([None]) or
    returns from its [catch] ([Some] of the value returned). *)
Definition scheduleTask (when : When Date) (description : string) : T value :=
  if String.eqb (type when) "no-schedule" then
    ret (VStr "Not a valid schedule input")
  else
    input <- select_input when ;;
    returned <- try_catch
                  (_ <- schedule input "executeTask" description ;; ret None)
                  (fun error =>
                     ret (Some (VStr ("Error scheduling task: " ++ String_of_thrown error)))) ;;
    match returned with
    | Some v => ret v
    | None =>
        ret (VStr ("Task scheduled for type " ++ Json.dquote ++ type when ++ Json.dquote
                   ++ " : " ++ String_of_input input))
    end.

(** [getScheduledTasks] *)
Definition getScheduledTasks : T value :=
  try_catch
    (tasks <- getSchedules ;;
     match tasks with
     | None => ret (VStr "No scheduled tasks found.")
     | Some tasks =>
         if Nat.eqb (List.length tasks) 0 then ret (VStr "No scheduled tasks found.")
         else ret (VArr (map VObj tasks))
     end)
    (fun error => ret (VStr ("Error listing scheduled tasks: " ++ String_of_thrown error))).

(** [cancelScheduledTask] *)
Definition cancelScheduledTask (taskId : string) : T value :=
  try_catch
    (_ <- cancelSchedule taskId ;;
     ret (VStr ("Task " ++ taskId ++ " has been successfully canceled.")))
    (fun error =>
       ret (VStr ("Error canceling task " ++ taskId ++ ": " ++ String_of_thrown error))).

End Agent.

Arguments mkSession {Date Agent} agent agent_calls.
Arguments agent {Date Agent} s.
Arguments agent_calls {Date Agent} s.
Arguments scheduleTask {Date} Date_toString {Agent} agent_schedule when description s.
Arguments getScheduledTasks {Date Agent} agent_getSchedules s.
Arguments cancelScheduledTask {Date Agent} agent_cancelSchedule taskId s.
Arguments select_input {Date Agent} when s.
Arguments String_of_input {Date} Date_toString input.

End Scheduling.

(** ** The scheduling tools in statements *)

(** The sentence [scheduleTask] returns after scheduling:
    [`Task scheduled for type "${when.type}" : ${input}`]. *)
Definition scheduled_text {Date : Type} (Date_toString : Date -> string)
           (when : Scheduling.When Date) (input : Scheduling.ScheduleInput Date) : string :=
  "Task scheduled for type " ++ Json.dquote ++ Scheduling.type when ++ Json.dquote
  ++ " : " ++ Scheduling.String_of_input Date_toString input.

(** The field of [when] that belongs to a tag, [undefined] when it is
    absent. *)
Definition field_of_tag {Date : Type} (tag : string) (when : Scheduling.When Date)
  : Scheduling.ScheduleInput Date :=
  if String.eqb tag "scheduled" then
    match Scheduling.date when with
    | Some d => Scheduling.InputDate d
    | None => Scheduling.InputUndefined
    end
  else if String.eqb tag "delayed" then
    match Scheduling.delayInSeconds when with
    | Some n => Scheduling.InputNumber n
    | None => Scheduling.InputUndefined
    end
  else
    match Scheduling.cron when with
    | Some c => Scheduling.InputString c
    | None => Scheduling.InputUndefined
    end.

(** ** An agent to run the scheduling tools on *)

Module DemoAgent.
Import Scheduling.

(** Dates are seconds since the epoch, printed as such. *)
Definition Date : Type := Z.
Definition Date_toString (d : Date) : string := "@" ++ Number_toString d.

(** The agent keeps the ids of its schedules; a new schedule gets the next
    number as its id. *)
Definition Agent : Type := list string.

(** Scheduling throws on the cron expression [bad] and returns on any other
    input. *)
Definition agent_schedule (a : Agent) (input : ScheduleInput Date)
           (callback payload : string) : outcome unit * Agent :=
  match input with
  | InputString "bad" => (Throws (ErrorObject "TypeError" "invalid cron"), a)
  | _ => (Returns tt, a ++ [Number_toString (Z.of_nat (List.length a))])%list
  end.

Definition agent_getSchedules (a : Agent) : outcome (option (list object)) * Agent :=
  (Returns (Some (map (fun id => [("id", VStr id)]) a)), a).

Definition agent_cancelSchedule (a : Agent) (id : string) : outcome bool * Agent :=
  if String.eqb id "locked" then (Throws (ThrownValue (VStr "schedule is locked")), a)
  else (Returns (existsb (String.eqb id) a),
        filter (fun x => negb (String.eqb id x)) a).

Definition session : Session Date Agent := mkSession [] [].

End DemoAgent.

(** ** Reading a JSON string literal back

    The decoder of the literals [Json.quote] writes, as a JSON parser reads
    them: a double quote, then code units and escapes up to the closing
    double quote, which ends the text. *)

Module JsonRead.

Definition hexValue (c : ascii) : option N :=
  let n := code c in
  (if (48 <=? n) && (n <=? 57) then Some (n - 48)
   else if (97 <=? n) && (n <=? 102) then Some (n - 87)
   else if (65 <=? n) && (n <=? 70) then Some (n - 55)
   else None)%N.

(** The code unit of [\uXXXX], when it is below U+0100. *)
Definition unicodeEscape (h1 h2 h3 h4 : ascii) : option ascii :=
  match hexValue h1, hexValue h2, hexValue h3, hexValue h4 with
  | Some 0%N, Some 0%N, Some a, Some b => Some (ascii_of_N (16 * a + b))
  | _, _, _, _ => None
  end.

Definition simpleEscape (e : ascii) : option ascii :=
  let n := code e in
  (if n =? 98 then Some (ascii_of_N 8)         (* b *)
   else if n =? 116 then Some (ascii_of_N 9)   (* t *)
   else if n =? 110 then Some (ascii_of_N 10)  (* n *)
   else if n =? 102 then Some (ascii_of_N 12)  (* f *)
   else if n =? 114 then Some (ascii_of_N 13)  (* r *)
   else if n =? 34 then Some e                 (* double quote *)
   else if n =? 92 then Some e                 (* backslash *)
   else if n =? 47 then Some e                 (* slash *)
   else None)%N.

Definition cons_some (c : option ascii) (rest : option string) : option string :=
  match c, rest with
  | Some c, Some rest => Some (String c rest)
  | _, _ => None
  end.

(** The text of a literal after its opening quote. *)
Fixpoint body (s : string) : option string :=
  match s with
  | EmptyString => None
  | String c rest =>
      if (code c =? 34)%N then
        match rest with EmptyString => Some EmptyString | _ => None end
      else if (code c =? 92)%N then
        match rest with
        | String e rest' =>
            if (code e =? 117)%N then
              match rest' with
              | String h1 (String h2 (String h3 (String h4 rest''))) =>
                  cons_some (unicodeEscape h1 h2 h3 h4) (body rest'')
              | _ => None
              end
            else cons_some (simpleEscape e) (body rest')
        | EmptyString => None
        end
      else if (code c <? 32)%N then None
      else cons_some (Some c) (body rest)
  end.

Definition unquote (literal : string) : option string :=
  match literal with
  | String c rest => if (code c =? 34)%N then body rest else None
  | EmptyString => None
  end.

End JsonRead.

(** ** Predicates on texts used in the statements *)

Fixpoint every (f : ascii -> bool) (s : string) : bool :=
  match s with
  | EmptyString => true
  | String c s' => f c && every f s'
  end.

(** The text consists of white space only (the empty text included). *)
Definition allWhiteSpace (s : string) : bool := every isWhiteSpace s.

(** The text holds no white space. *)
Definition noWhiteSpace (s : string) : bool := every (fun c => negb (isWhiteSpace c)) s.

(** * Properties *)

(** ** Strings *)

Lemma append_empty_r (s : string) : s ++ "" = s.
Proof. induction s as [|c s IH]; simpl; [reflexivity | now rewrite IH]. Qed.

Lemma append_assoc (a b c : string) : (a ++ b) ++ c = a ++ b ++ c.
Proof. induction a as [|x a IH]; simpl; [reflexivity | now rewrite IH]. Qed.

Lemma startsWith_append (p r : string) : startsWith (p ++ r) p = true.
Proof.
  induction p as [|c p IH]; simpl; [reflexivity |].
  now rewrite Ascii.eqb_refl, IH.
Qed.

(** [startsWith] is the prefix relation. *)
Lemma startsWith_spec (s p : string) :
  startsWith s p = true <-> exists r, s = p ++ r.
Proof.
  split.
  - revert s. induction p as [|b p IH]; intros s H.
    + exists s. reflexivity.
    + destruct s as [|a s]; simpl in H; [discriminate |].
      apply andb_true_iff in H. destruct H as [Hab Hs].
      apply Ascii.eqb_eq in Hab. subst b.
      destruct (IH _ Hs) as [r ->]. exists r. reflexivity.
  - intros [r ->]. apply startsWith_append.
Qed.

Lemma includes_here (s p : string) : startsWith s p = true -> includes s p = true.
Proof. intros H. destruct s; simpl in *; rewrite H; reflexivity. Qed.

Lemma includes_later (c : ascii) (s p : string) :
  includes s p = true -> includes (String c s) p = true.
Proof. intros H. simpl. rewrite H. apply orb_true_r. Qed.

(** [includes] is the substring relation. *)
Lemma includes_spec (s p : string) :
  includes s p = true <-> exists a b, s = a ++ p ++ b.
Proof.
  split.
  - induction s as [|c s IH]; simpl; intros H.
    + rewrite orb_false_r in H. apply startsWith_spec in H.
      destruct H as [r Hr]. exists "", r. simpl. exact Hr.
    + apply orb_true_iff in H. destruct H as [H | H].
      * apply (startsWith_spec (String c s) p) in H.
        destruct H as [r Hr]. exists "", r. simpl. exact Hr.
      * destruct (IH H) as (a & b & ->). exists (String c a), b. reflexivity.
  - intros (a & b & ->). induction a as [|c a IH].
    + apply includes_here. exact (startsWith_append p b).
    + apply includes_later. exact IH.
Qed.

Lemma includes_suffix (a p : string) : includes (a ++ p) p = true.
Proof.
  apply includes_spec. exists a, "". now rewrite append_empty_r.
Qed.

(** [startsWith] compares the first [length p] code units and nothing else. *)
Lemma startsWith_substring (p s : string) :
  startsWith s p = String.eqb (substring 0 (String.length p) s) p.
Proof.
  revert s. induction p as [|b p IH]; intros s.
  - destruct s; reflexivity.
  - destruct s as [|a s]; cbn [startsWith substring String.eqb String.length].
    + reflexivity.
    + now rewrite IH.
Qed.

(** Lower-casing does not change a text that is already in lower case, and
    trimming does not change a trimmed one. *)
Lemma toLowerCaseUnit_idem (c : ascii) :
  toLowerCaseUnit (toLowerCaseUnit c) = toLowerCaseUnit c.
Proof.
  destruct c as [[] [] [] [] [] [] [] []]; reflexivity.
Qed.

Lemma toLowerCase_idem (s : string) : toLowerCase (toLowerCase s) = toLowerCase s.
Proof.
  induction s as [|c s IH]; simpl; [reflexivity |].
  now rewrite toLowerCaseUnit_idem, IH.
Qed.

Lemma toLowerCase_length (s : string) :
  String.length (toLowerCase s) = String.length s.
Proof. induction s as [|c s IH]; simpl; [reflexivity | now rewrite IH]. Qed.

Lemma trimStart_suffix (s : string) : exists a, s = a ++ trimStart s.
Proof.
  induction s as [|c s [a IH]]; simpl.
  - exists "". reflexivity.
  - destruct (isWhiteSpace c).
    + exists (String c a). simpl. now rewrite <- IH.
    + exists "". reflexivity.
Qed.

Lemma trimEnd_prefix (s : string) : exists b, s = trimEnd s ++ b.
Proof.
  induction s as [|c s [b IH]]; simpl.
  - exists "". reflexivity.
  - destruct (trimEnd s) as [|c' r] eqn:E.
    + destruct (isWhiteSpace c).
      * exists (String c s). reflexivity.
      * exists s. reflexivity.
    + exists b. simpl. simpl in IH. now rewrite <- IH.
Qed.

(** The trimmed text is a contiguous piece of the text. *)
Lemma trim_infix (s : string) : exists a b, s = a ++ trim s ++ b.
Proof.
  destruct (trimStart_suffix s) as [a Ha].
  destruct (trimEnd_prefix (trimStart s)) as [b Hb].
  exists a, b. unfold trim. now rewrite <- Hb.
Qed.

(** ** Running [executeSQLQuery] *)

Section Run.

Context {DB : Type} (sql_exec : DB -> string -> completion (list object) * DB).

Lemma executeSQLQuery_rejected (query : string) (limit : Z) (w : World DB) :
  startsWith (normalize query) "select" = false ->
  executeSQLQuery sql_exec query limit w = (Normal (VStr rejection), w).
Proof.
  intros H. unfold executeSQLQuery, try_catch. rewrite H. reflexivity.
Qed.

(** An accepted query makes exactly one call of the capability, on
    [limitedQuery], and every outcome of that call becomes a returned
    value. *)
Lemma executeSQLQuery_accepted (query : string) (limit : Z) (w : World DB) :
  startsWith (normalize query) "select" = true ->
  executeSQLQuery sql_exec query limit w =
    let text := limitedQuery query limit in
    let (r, d) := sql_exec (db w) text in
    (Normal match r with
            | Normal rows =>
                if Nat.eqb (List.length rows) 0
                then JSON_stringify (emptyResult text)
                else JSON_stringify (rowsResult rows text)
            | Throw e => VStr ("SQL Error: " ++ error_text e)
            end,
     mkWorld d (sql_calls w ++ [text])).
Proof.
  intros H. unfold executeSQLQuery, try_catch, bind, storage_exec.
  rewrite H. cbn [negb].
  destruct (sql_exec (db w) (limitedQuery query limit)) as [[rows | e] d].
  - destruct (Nat.eqb (List.length rows) 0); reflexivity.
  - reflexivity.
Qed.

(** No fault leaves [executeSQLQuery], whatever the input and whatever the
    capability does. *)
Lemma executeSQLQuery_never_throws (query : string) (limit : Z) (w : World DB) :
  exists v, fst (executeSQLQuery sql_exec query limit w) = Normal v.
Proof.
  destruct (startsWith (normalize query) "select") eqn:H.
  - rewrite (executeSQLQuery_accepted _ _ _ H). cbv zeta.
    destruct (sql_exec _ _) as [r d]. eexists. reflexivity.
  - rewrite (executeSQLQuery_rejected _ _ _ H). eexists. reflexivity.
Qed.

Lemma getDatabaseSchema_run (w : World DB) :
  getDatabaseSchema sql_exec w =
    let (r, d) := sql_exec (db w) schemaQuery in
    (Normal match r with
            | Normal tables =>
                if Nat.eqb (List.length tables) 0
                then VStr "No tables found in database."
                else JSON_stringify
                       (VObj [("database", VStr "SQLite (Cloudflare Durable Object)");
                              ("tableCount", VNum (Z.of_nat (List.length tables)));
                              ("tables", VArr (map schemaEntry tables))])
            | Throw e => VStr ("Error getting schema: " ++ error_text e)
            end,
     mkWorld d (sql_calls w ++ [schemaQuery])).
Proof.
  unfold getDatabaseSchema, try_catch, bind, storage_exec.
  destruct (sql_exec (db w) schemaQuery) as [[tables | e] d].
  - destruct (Nat.eqb (List.length tables) 0); reflexivity.
  - reflexivity.
Qed.

End Run.

Lemma length_zero_iff_nil {A} (l : list A) : Nat.eqb (List.length l) 0 = true <-> l = [].
Proof. destruct l; simpl; split; intros H; congruence. Qed.

Lemma limitedQuery_cases (query : string) (limit : Z) :
  limitedQuery query limit = query
  \/ limitedQuery query limit = query ++ " LIMIT " ++ Number_toString (safeLimit limit).
Proof. unfold limitedQuery. destruct (includes _ _); auto. Qed.

(** Concrete runs on the demo storage. *)
Example run_select_contacts :
  executeSQLQuery_tool Demo.exec "SELECT * FROM contacts" None Demo.world =
    (Normal (JSON_stringify (rowsResult Demo.contacts "SELECT * FROM contacts LIMIT 100")),
     mkWorld 1%nat ["SELECT * FROM contacts LIMIT 100"]).
Proof. reflexivity. Qed.

Example run_limit_ten :
  sql_calls (snd (executeSQLQuery_tool Demo.exec "select * from contacts limit 10" None Demo.world))
  = ["select * from contacts limit 10"].
Proof. reflexivity. Qed.

Example run_huge_limit :
  sql_calls (snd (executeSQLQuery_tool Demo.exec "select * from contacts LIMIT 100000" (Some 5) Demo.world))
  = ["select * from contacts LIMIT 100000"].
Proof. reflexivity. Qed.

Example run_drop_table :
  executeSQLQuery_tool Demo.exec "DROP TABLE contacts" None Demo.world
  = (Normal (VStr rejection), Demo.world).
Proof. reflexivity. Qed.

Example run_padded_mixed_case :
  sql_calls (snd (executeSQLQuery_tool Demo.exec "  SeLeCt Name FROM Contacts " (Some 7) Demo.world))
  = ["  SeLeCt Name FROM Contacts  LIMIT 7"].
Proof. reflexivity. Qed.

(** ** The text [JSON.stringify] produces for the two result objects *)

Lemma emptyResult_text (text : string) :
  JSON_stringify (emptyResult text) =
    VStr ("{" ++ Json.LF ++
          "  " ++ Json.quote "rowCount" ++ ": 0," ++ Json.LF ++
          "  " ++ Json.quote "rows" ++ ": []," ++ Json.LF ++
          "  " ++ Json.quote "query" ++ ": " ++ Json.quote text ++ "," ++ Json.LF ++
          "  " ++ Json.quote "message" ++ ": "
               ++ Json.quote "Query executed successfully. No results returned."
               ++ Json.LF ++
          "}").
Proof.
  unfold JSON_stringify, emptyResult. cbn. rewrite ?append_assoc. cbn. reflexivity.
Qed.

Lemma serialize_object_is_text (stepback : string) (props : list (string * value)) :
  exists t, Json.serialize stepback (VObj props) = Some t /\ startsWith t "{" = true.
Proof.
  cbn [Json.serialize]. eexists. split; [reflexivity |].
  unfold Json.wrap. destruct (flat_map _ props); reflexivity.
Qed.

Lemma JSON_stringify_object (props : list (string * value)) :
  exists t, JSON_stringify (VObj props) = VStr t /\ startsWith t "{" = true.
Proof.
  unfold JSON_stringify.
  destruct (serialize_object_is_text "" props) as (t & -> & Ht).
  exists t. split; [reflexivity | exact Ht].
Qed.

(** ** The claims *)

Section Claims.

Context {DB : Type} (sql_exec : DB -> string -> completion (list object) * DB).

(** C1.  A text whose trimmed, lower-cased form does not start with
    [select] is answered with the rejection message, which says that only
    SELECT queries are allowed, and the world is returned as it was: the
    storage capability has not been called and the storage is untouched. *)
Theorem executeSQLQuery_rejects_non_select
        (query : string) (limit : Z) (w : World DB) :
  startsWith (normalize query) "select" = false ->
  executeSQLQuery sql_exec query limit w = (Normal (VStr rejection), w)
  /\ sql_calls (snd (executeSQLQuery sql_exec query limit w)) = sql_calls w
  /\ includes rejection "Only SELECT queries are allowed" = true.
Proof.
  intros H. rewrite (executeSQLQuery_rejected sql_exec query limit w H).
  repeat split.
Qed.

(** C3.  An accepted query whose normalised text contains [limit] at any
    position is handed to the capability as it was written: the one call
    made carries exactly [query], with nothing appended and nothing
    changed, whatever limit was requested. *)
Theorem executeSQLQuery_keeps_text_with_limit
        (query : string) (limit : Z) (w : World DB) :
  startsWith (normalize query) "select" = true ->
  includes (normalize query) "limit" = true ->
  limitedQuery query limit = query
  /\ sql_calls (snd (executeSQLQuery sql_exec query limit w)) = (sql_calls w ++ [query])%list.
Proof.
  intros Hsel Hlim.
  assert (E : limitedQuery query limit = query)
    by (unfold limitedQuery; now rewrite Hlim).
  split; [exact E |].
  rewrite (executeSQLQuery_accepted sql_exec query limit w Hsel). cbv zeta.
  rewrite E. destruct (sql_exec (db w) query) as [r d]. reflexivity.
Qed.

(** C4.  An accepted query given without a limit, whose normalised text
    does not contain [limit], is executed as the original text followed by
    [ LIMIT 100]. *)
Theorem executeSQLQuery_default_limit (query : string) (w : World DB) :
  startsWith (normalize query) "select" = true ->
  includes (normalize query) "limit" = false ->
  sql_calls (snd (executeSQLQuery_tool sql_exec query None w))
  = (sql_calls w ++ [(query ++ " LIMIT 100")%string])%list.
Proof.
  intros Hsel Hlim. unfold executeSQLQuery_tool.
  rewrite (executeSQLQuery_accepted sql_exec query _ w Hsel). cbv zeta.
  destruct (sql_exec _ _) as [r d]. cbn [snd sql_calls].
  unfold limitedQuery. rewrite Hlim. reflexivity.
Qed.

(** C5 (amended).  When the capability throws on the text of an accepted
    query, the tool returns normally with a string that starts with
    [SQL Error:]; nothing is thrown to the caller.  For a thrown [Error] the
    string is [SQL Error: ] followed by the message of the error, which it
    therefore contains; for any other thrown value it is
    [SQL Error: Unknown error]. *)
Theorem executeSQLQuery_catches_failure
        (query : string) (limit : Z) (w : World DB) (e : Thrown) (d : DB) :
  startsWith (normalize query) "select" = true ->
  sql_exec (db w) (limitedQuery query limit) = (Throw e, d) ->
  executeSQLQuery sql_exec query limit w
  = (Normal (VStr match e with
                  | ErrorInstance message => "SQL Error: " ++ message
                  | NonError _ => "SQL Error: Unknown error"
                  end),
     mkWorld d (sql_calls w ++ [limitedQuery query limit]))
  /\ exists text : string,
       fst (executeSQLQuery sql_exec query limit w) = Normal (VStr text)
       /\ startsWith text "SQL Error:" = true
       /\ forall message : string,
            e = ErrorInstance message -> includes text message = true.
Proof.
  intros Hsel Hexec.
  rewrite (executeSQLQuery_accepted sql_exec query limit w Hsel). cbv zeta.
  rewrite Hexec. split.
  - destruct e; reflexivity.
  - eexists. split; [reflexivity |]. split; [reflexivity |].
    intros message ->. apply includes_suffix.
Qed.

(** C6.  When the capability returns no row for an accepted query, the tool
    returns the serialised object [{rowCount: 0, rows: [], query, message}]
    whose [query] is the executed text: a JSON object text, neither the
    rejection nor an [SQL Error] string. *)
Theorem executeSQLQuery_empty_result
        (query : string) (limit : Z) (w : World DB) (d : DB) :
  startsWith (normalize query) "select" = true ->
  sql_exec (db w) (limitedQuery query limit) = (Normal [], d) ->
  let text := limitedQuery query limit in
  executeSQLQuery sql_exec query limit w
  = (Normal (JSON_stringify
               (VObj [("rowCount", VNum 0);
                      ("rows", VArr []);
                      ("query", VStr text);
                      ("message", VStr "Query executed successfully. No results returned.")])),
     mkWorld d (sql_calls w ++ [text]))
  /\ fst (executeSQLQuery sql_exec query limit w)
     = Normal (VStr ("{" ++ Json.LF ++
                     "  " ++ Json.quote "rowCount" ++ ": 0," ++ Json.LF ++
                     "  " ++ Json.quote "rows" ++ ": []," ++ Json.LF ++
                     "  " ++ Json.quote "query" ++ ": " ++ Json.quote text ++ "," ++ Json.LF ++
                     "  " ++ Json.quote "message" ++ ": "
                          ++ Json.quote "Query executed successfully. No results returned."
                          ++ Json.LF ++
                     "}")).
Proof.
  intros Hsel Hexec text. subst text.
  rewrite (executeSQLQuery_accepted sql_exec query limit w Hsel). cbv zeta.
  rewrite Hexec. cbn [List.length Nat.eqb fst].
  split; [reflexivity |]. f_equal. apply emptyResult_text.
Qed.

(** C7.  When the capability returns a non-empty row sequence for an
    accepted query, the tool returns the serialised object whose
    [rowCount] is the length of the sequence, whose [rows] are the rows in
    the order returned, and whose [query] is the text that was executed. *)
Theorem executeSQLQuery_rows_result
        (query : string) (limit : Z) (w : World DB) (rows : list object) (d : DB) :
  startsWith (normalize query) "select" = true ->
  sql_exec (db w) (limitedQuery query limit) = (Normal rows, d) ->
  rows <> [] ->
  let text := limitedQuery query limit in
  executeSQLQuery sql_exec query limit w
  = (Normal (JSON_stringify
               (VObj [("rowCount", VNum (Z.of_nat (List.length rows)));
                      ("rows", VArr (map VObj rows));
                      ("query", VStr text)])),
     mkWorld d (sql_calls w ++ [text]))
  /\ exists t, fst (executeSQLQuery sql_exec query limit w) = Normal (VStr t)
               /\ startsWith t "{" = true.
Proof.
  intros Hsel Hexec Hrows text. subst text.
  rewrite (executeSQLQuery_accepted sql_exec query limit w Hsel). cbv zeta.
  rewrite Hexec.
  destruct (Nat.eqb (List.length rows) 0) eqn:E.
  - apply length_zero_iff_nil in E. contradiction.
  - split; [reflexivity |]. cbn [fst].
    unfold rowsResult.
    destruct (JSON_stringify_object
                [("rowCount", VNum (Z.of_nat (List.length rows)));
                 ("rows", VArr (map VObj rows));
                 ("query", VStr (limitedQuery query limit))]) as (t & Ht & Hb).
    exists t. split; [now rewrite Ht | exact Hb].
Qed.

(** C2 (amended).  For an explicitly given limit [L > 0] the effective
    limit is [min(L, 500)] and lies between 0 and 500.  It is the number the
    tool writes after [ LIMIT ] when the text has no [limit] of its own, and
    the text so limited is what an accepted query is executed as. *)
Theorem executeSQLQuery_effective_limit (query : string) (L : Z) (w : World DB) :
  0 < L ->
  safeLimit (parse_limit (Some L)) = Z.min L 500
  /\ 0 <= safeLimit (parse_limit (Some L)) <= 500
  /\ limitedQuery query (parse_limit (Some L))
     = (if includes (normalize query) "limit"
        then query
        else query ++ " LIMIT " ++ Number_toString (Z.min L 500))
  /\ (startsWith (normalize query) "select" = true ->
      sql_calls (snd (executeSQLQuery_tool sql_exec query (Some L) w))
      = (sql_calls w ++ [limitedQuery query (parse_limit (Some L))])%list).
Proof.
  intros H.
  assert (E : safeLimit (parse_limit (Some L)) = Z.min L 500).
  { unfold safeLimit, parse_limit, Math_min, or_default.
    destruct (Z.eqb_spec L 0); [lia | reflexivity]. }
  split; [exact E |]. split; [rewrite E; lia |]. split.
  - unfold limitedQuery. now rewrite E.
  - intros Hsel. unfold executeSQLQuery_tool.
    rewrite (executeSQLQuery_accepted sql_exec query _ w Hsel). cbv zeta.
    destruct (sql_exec _ _) as [r d]. reflexivity.
Qed.

(** C8.  For an accepted query the text handed to the capability is the
    input itself, code unit for code unit (neither trimmed nor
    lower-cased), followed by nothing or by [ LIMIT n] for the effective
    limit [n]. *)
Theorem executeSQLQuery_executes_original_text
        (query : string) (limit : Z) (w : World DB) :
  startsWith (normalize query) "select" = true ->
  exists suffix : string,
    (suffix = "" \/ suffix = " LIMIT " ++ Number_toString (safeLimit limit))
    /\ sql_calls (snd (executeSQLQuery sql_exec query limit w))
       = (sql_calls w ++ [(query ++ suffix)%string])%list
    /\ startsWith (query ++ suffix) query = true.
Proof.
  intros Hsel.
  rewrite (executeSQLQuery_accepted sql_exec query limit w Hsel). cbv zeta.
  destruct (sql_exec _ _) as [r d]. cbn [snd sql_calls].
  unfold limitedQuery. destruct (includes (normalize query) "limit").
  - exists "". split; [now left |]. split; [| apply startsWith_append].
    now rewrite append_empty_r.
  - eexists. split; [now right |]. split; [reflexivity | apply startsWith_append].
Qed.

(** C9 (amended).  [getDatabaseSchema] makes exactly one call of the
    capability, on the fixed query.  When that call returns at least one
    row, the result is the serialised report whose [tableCount] is the
    number of rows and whose [tables] holds, in the order returned,
    [{table: name, createStatement: sql}] for each row.  When it returns no
    row, the result is the plain text [No tables found in database.].
    Whenever the fixed query returns the same outcome in two worlds, the
    tool returns the same result in both. *)
Theorem getDatabaseSchema_report :
  (forall w : World DB,
      sql_calls (snd (getDatabaseSchema sql_exec w))
      = (sql_calls w ++ ["SELECT name, sql FROM sqlite_master WHERE type='table' ORDER BY name"])%list)
  /\ (forall (w : World DB) (tables : list object) (d : DB),
         sql_exec (db w) schemaQuery = (Normal tables, d) ->
         tables <> [] ->
         fst (getDatabaseSchema sql_exec w)
         = Normal (JSON_stringify
                     (VObj [("database", VStr "SQLite (Cloudflare Durable Object)");
                            ("tableCount", VNum (Z.of_nat (List.length tables)));
                            ("tables",
                             VArr (map (fun row =>
                                          VObj [("table", get_prop row "name");
                                                ("createStatement", get_prop row "sql")])
                                       tables))])))
  /\ (forall (w : World DB) (d : DB),
         sql_exec (db w) schemaQuery = (Normal [], d) ->
         fst (getDatabaseSchema sql_exec w)
         = Normal (VStr "No tables found in database."))
  /\ (forall w1 w2 : World DB,
         fst (sql_exec (db w1) schemaQuery) = fst (sql_exec (db w2) schemaQuery) ->
         fst (getDatabaseSchema sql_exec w1) = fst (getDatabaseSchema sql_exec w2)).
Proof.
  split; [| split; [| split]].
  - intros w. rewrite getDatabaseSchema_run. cbv zeta.
    destruct (sql_exec _ _) as [r d]. reflexivity.
  - intros w tables d Hexec Hne. rewrite getDatabaseSchema_run. cbv zeta.
    rewrite Hexec. cbn [fst].
    destruct (Nat.eqb (List.length tables) 0) eqn:E.
    + apply length_zero_iff_nil in E. contradiction.
    + reflexivity.
  - intros w d Hexec. rewrite getDatabaseSchema_run. cbv zeta.
    rewrite Hexec. reflexivity.
  - intros w1 w2 Hsame. rewrite !getDatabaseSchema_run. cbv zeta.
    destruct (sql_exec (db w1) schemaQuery) as [r1 d1].
    destruct (sql_exec (db w2) schemaQuery) as [r2 d2].
    cbn [fst] in *. now subst r2.
Qed.

(** C10.  The guard compares the first six code units of the normalised
    text with [select] and looks at nothing after them: the text
    [Selections of stock], which is no SELECT statement, is accepted and
    handed to the capability (with the default limit appended). *)
Theorem select_guard_is_prefix_test (w : World DB) :
  (forall query : string,
      startsWith (normalize query) "select"
      = String.eqb (substring 0 6 (normalize query)) "select")
  /\ normalize "Selections of stock" = "selections of stock"
  /\ sql_calls (snd (executeSQLQuery_tool sql_exec "Selections of stock" None w))
     = (sql_calls w ++ ["Selections of stock LIMIT 100"])%list.
Proof.
  split; [| split].
  - intros query. apply (startsWith_substring "select").
  - reflexivity.
  - unfold executeSQLQuery_tool.
    rewrite executeSQLQuery_accepted by reflexivity. cbv zeta.
    destruct (sql_exec _ _) as [r d]. reflexivity.
Qed.

End Claims.

(** ** The claims at concrete inputs *)

Lemma executeSQLQuery_rejects_non_select_witness :
  startsWith (normalize "DROP TABLE contacts") "select" = false
  /\ executeSQLQuery Demo.exec "DROP TABLE contacts" 100 Demo.world
     = (Normal (VStr rejection), Demo.world)
  /\ sql_calls (snd (executeSQLQuery Demo.exec "DROP TABLE contacts" 100 Demo.world)) = [].
Proof.
  split; [reflexivity |].
  pose proof (executeSQLQuery_rejects_non_select
                Demo.exec "DROP TABLE contacts" 100 Demo.world eq_refl) as (H1 & H2 & _).
  split; [exact H1 | exact H2].
Defined.

(** C2 as stated fails: an explicit limit of [0] gives the effective limit
    [100], not [min(0, 500) = 0], and an explicit limit of [-1] gives [-1],
    which is below the range. *)
Lemma safeLimit_counterexample :
  ~ (safeLimit (parse_limit (Some 0)) = Z.min 0 500)
  /\ ~ (0 <= safeLimit (parse_limit (Some (-1))) <= 500).
Proof.
  split.
  - vm_compute. discriminate.
  - vm_compute. intros [H _]. apply H. reflexivity.
Qed.

Lemma executeSQLQuery_effective_limit_witness :
  0 < 750
  /\ safeLimit (parse_limit (Some 750)) = 500
  /\ sql_calls (snd (executeSQLQuery_tool Demo.exec "select * from contacts" (Some 750)
                                          Demo.world))
     = ["select * from contacts LIMIT 500"].
Proof.
  assert (H : 0 < 750) by lia.
  destruct (executeSQLQuery_effective_limit
              Demo.exec "select * from contacts" 750 Demo.world H)
    as (H1 & _ & _ & H4).
  split; [exact H |]. split; [exact H1 | exact (H4 eq_refl)].
Defined.

Lemma executeSQLQuery_keeps_text_with_limit_witness :
  startsWith (normalize "SELECT limited FROM contacts") "select" = true
  /\ includes (normalize "SELECT limited FROM contacts") "limit" = true
  /\ sql_calls (snd (executeSQLQuery Demo.exec "SELECT limited FROM contacts" 5 Demo.world))
     = ["SELECT limited FROM contacts"].
Proof.
  split; [reflexivity |]. split; [reflexivity |].
  exact (proj2 (executeSQLQuery_keeps_text_with_limit
                  Demo.exec "SELECT limited FROM contacts" 5 Demo.world eq_refl eq_refl)).
Defined.

Lemma executeSQLQuery_default_limit_witness :
  startsWith (normalize "SELECT * FROM contacts") "select" = true
  /\ includes (normalize "SELECT * FROM contacts") "limit" = false
  /\ sql_calls (snd (executeSQLQuery_tool Demo.exec "SELECT * FROM contacts" None Demo.world))
     = ["SELECT * FROM contacts LIMIT 100"].
Proof.
  split; [reflexivity |]. split; [reflexivity |].
  exact (executeSQLQuery_default_limit
           Demo.exec "SELECT * FROM contacts" Demo.world eq_refl eq_refl).
Defined.

Lemma executeSQLQuery_catches_failure_witness :
  startsWith (normalize "SELECT * FROM nosuch") "select" = true
  /\ Demo.exec 0%nat (limitedQuery "SELECT * FROM nosuch" 100)
     = (Throw (ErrorInstance "no such table: nosuch"), 1%nat)
  /\ executeSQLQuery Demo.exec "SELECT * FROM nosuch" 100 Demo.world
     = (Normal (VStr "SQL Error: no such table: nosuch"),
        mkWorld 1%nat ["SELECT * FROM nosuch LIMIT 100"]).
Proof.
  split; [reflexivity |]. split; [reflexivity |].
  exact (proj1 (executeSQLQuery_catches_failure
                  Demo.exec "SELECT * FROM nosuch" 100 Demo.world
                  (ErrorInstance "no such table: nosuch") 1%nat eq_refl eq_refl)).
Defined.

(** C5 as stated fails when what the capability throws is no [Error]: the
    storage throws the string [boom], and the tool answers
    [SQL Error: Unknown error], which does not contain [boom]. *)
Lemma executeSQLQuery_catches_failure_counterexample :
  startsWith (normalize "select 1") "select" = true
  /\ Demo.throwing 0%nat (limitedQuery "select 1" 100)
     = (Throw (NonError (VStr "boom")), 1%nat)
  /\ fst (executeSQLQuery Demo.throwing "select 1" 100 Demo.world)
     = Normal (VStr "SQL Error: Unknown error")
  /\ includes "SQL Error: Unknown error" "boom" = false.
Proof. repeat split. Qed.

Lemma executeSQLQuery_empty_result_witness :
  startsWith (normalize "select * from notes") "select" = true
  /\ Demo.exec 0%nat (limitedQuery "select * from notes" 100) = (Normal [], 1%nat)
  /\ executeSQLQuery Demo.exec "select * from notes" 100 Demo.world
     = (Normal (JSON_stringify (emptyResult "select * from notes LIMIT 100")),
        mkWorld 1%nat ["select * from notes LIMIT 100"]).
Proof.
  split; [reflexivity |]. split; [reflexivity |].
  exact (proj1 (executeSQLQuery_empty_result
                  Demo.exec "select * from notes" 100 Demo.world 1%nat eq_refl eq_refl)).
Defined.

Lemma executeSQLQuery_rows_result_witness :
  startsWith (normalize "select * from contacts") "select" = true
  /\ Demo.exec 0%nat (limitedQuery "select * from contacts" 100)
     = (Normal Demo.contacts, 1%nat)
  /\ Demo.contacts <> []
  /\ executeSQLQuery Demo.exec "select * from contacts" 100 Demo.world
     = (Normal (JSON_stringify
                  (VObj [("rowCount", VNum 2);
                         ("rows", VArr (map VObj Demo.contacts));
                         ("query", VStr "select * from contacts LIMIT 100")])),
        mkWorld 1%nat ["select * from contacts LIMIT 100"]).
Proof.
  assert (Hne : Demo.contacts <> []) by discriminate.
  split; [reflexivity |]. split; [reflexivity |]. split; [exact Hne |].
  exact (proj1 (executeSQLQuery_rows_result
                  Demo.exec "select * from contacts" 100 Demo.world
                  Demo.contacts 1%nat eq_refl eq_refl Hne)).
Defined.

Lemma executeSQLQuery_executes_original_text_witness :
  startsWith (normalize "  SeLeCt Name FROM Contacts ") "select" = true
  /\ exists suffix : string,
       (suffix = "" \/ suffix = " LIMIT " ++ Number_toString (safeLimit 7))
       /\ sql_calls (snd (executeSQLQuery Demo.exec "  SeLeCt Name FROM Contacts " 7 Demo.world))
          = ["  SeLeCt Name FROM Contacts " ++ suffix]
       /\ startsWith ("  SeLeCt Name FROM Contacts " ++ suffix)
                     "  SeLeCt Name FROM Contacts " = true.
Proof.
  split; [reflexivity |].
  exact (executeSQLQuery_executes_original_text
           Demo.exec "  SeLeCt Name FROM Contacts " 7 Demo.world eq_refl).
Defined.

(** C9 as stated fails on a storage without tables: the fixed query returns
    no row, and the tool answers with a plain sentence instead of a report
    with [tableCount] 0. *)
Lemma getDatabaseSchema_counterexample :
  Demo.bare 0%nat schemaQuery = (Normal [], 1%nat)
  /\ fst (getDatabaseSchema Demo.bare Demo.world)
     = Normal (VStr "No tables found in database.")
  /\ includes "No tables found in database." "tableCount" = false
  /\ fst (getDatabaseSchema Demo.bare Demo.world)
     <> Normal (JSON_stringify
                  (VObj [("database", VStr "SQLite (Cloudflare Durable Object)");
                         ("tableCount", VNum 0);
                         ("tables", VArr [])])).
Proof.
  repeat split. vm_compute. discriminate.
Qed.

Lemma getDatabaseSchema_report_witness :
  Demo.exec 0%nat schemaQuery = (Normal Demo.tables, 1%nat)
  /\ Demo.tables <> []
  /\ fst (getDatabaseSchema Demo.exec Demo.world)
     = Normal (JSON_stringify
                 (VObj [("database", VStr "SQLite (Cloudflare Durable Object)");
                        ("tableCount", VNum 2);
                        ("tables",
                         VArr [VObj [("table", VStr "contacts");
                                     ("createStatement",
                                      VStr "CREATE TABLE contacts (id INTEGER, name TEXT)")];
                               VObj [("table", VStr "notes");
                                     ("createStatement",
                                      VStr "CREATE TABLE notes (id INTEGER, body TEXT)")]])]))
  /\ fst (getDatabaseSchema Demo.exec (mkWorld 1%nat [schemaQuery]))
     = fst (getDatabaseSchema Demo.exec Demo.world).
Proof.
  assert (Hne : Demo.tables <> []) by discriminate.
  destruct (getDatabaseSchema_report Demo.exec) as (_ & Hreport & _ & Hsame).
  split; [reflexivity |]. split; [exact Hne |]. split.
  - exact (Hreport Demo.world Demo.tables 1%nat eq_refl Hne).
  - exact (Hsame (mkWorld 1%nat [schemaQuery]) Demo.world eq_refl).
Defined.

(** * Further properties of the tools *)

(** ** Trimming and lower-casing *)

Lemma append_length (a b : string) :
  String.length (a ++ b) = (String.length a + String.length b)%nat.
Proof. induction a as [|c a IH]; simpl; [reflexivity | now rewrite IH]. Qed.

Lemma append_inv_tail (a b t : string) : a ++ t = b ++ t -> a = b.
Proof.
  revert b. induction a as [|c a IH]; intros [|d b] H; simpl in H.
  - reflexivity.
  - apply (f_equal String.length) in H. simpl in H. rewrite append_length in H. lia.
  - apply (f_equal String.length) in H. simpl in H. rewrite append_length in H. lia.
  - injection H as -> H. f_equal. now apply IH.
Qed.

Lemma toLowerCase_append (a b : string) :
  toLowerCase (a ++ b) = toLowerCase a ++ toLowerCase b.
Proof. induction a as [|c a IH]; simpl; [reflexivity | now rewrite IH]. Qed.

Lemma isWhiteSpace_toLowerCaseUnit (c : ascii) :
  isWhiteSpace (toLowerCaseUnit c) = isWhiteSpace c.
Proof. destruct c as [[] [] [] [] [] [] [] []]; reflexivity. Qed.

Lemma trimStart_toLowerCase (s : string) :
  trimStart (toLowerCase s) = toLowerCase (trimStart s).
Proof.
  induction s as [|c s IH]; simpl; [reflexivity |].
  rewrite isWhiteSpace_toLowerCaseUnit. destruct (isWhiteSpace c); [exact IH | reflexivity].
Qed.

Lemma trimEnd_toLowerCase (s : string) :
  trimEnd (toLowerCase s) = toLowerCase (trimEnd s).
Proof.
  induction s as [|c s IH]; simpl; [reflexivity |].
  rewrite IH, isWhiteSpace_toLowerCaseUnit.
  destruct (trimEnd s); simpl; [destruct (isWhiteSpace c) |]; reflexivity.
Qed.

(** Trimming and lower-casing commute. *)
Lemma normalize_lower_first (query : string) :
  normalize query = trim (toLowerCase query).
Proof.
  unfold normalize, trim. now rewrite trimStart_toLowerCase, trimEnd_toLowerCase.
Qed.

Lemma trimStart_allWhiteSpace (a s : string) :
  allWhiteSpace a = true -> trimStart (a ++ s) = trimStart s.
Proof.
  induction a as [|c a IH]; simpl; intros H; [reflexivity |].
  apply andb_true_iff in H. destruct H as [Hc Ha]. rewrite Hc. now apply IH.
Qed.

Lemma trimEnd_allWhiteSpace (b : string) : allWhiteSpace b = true -> trimEnd b = "".
Proof.
  induction b as [|c b IH]; simpl; intros H; [reflexivity |].
  apply andb_true_iff in H. destruct H as [Hc Hb]. now rewrite (IH Hb), Hc.
Qed.

Lemma trimEnd_append_allWhiteSpace (s b : string) :
  allWhiteSpace b = true -> trimEnd (s ++ b) = trimEnd s.
Proof.
  intros H. induction s as [|c s IH]; simpl.
  - now apply trimEnd_allWhiteSpace.
  - now rewrite IH.
Qed.

Lemma trim_append_allWhiteSpace (s b : string) :
  allWhiteSpace b = true -> trim (s ++ b) = trim s.
Proof.
  intros H. unfold trim. induction s as [|c s IH]; simpl.
  - rewrite <- (append_empty_r b) at 1.
    rewrite (trimStart_allWhiteSpace b "" H). reflexivity.
  - destruct (isWhiteSpace c); [exact IH |].
    exact (trimEnd_append_allWhiteSpace (String c s) b H).
Qed.

Lemma trimEnd_cons_nonws (c : ascii) (s : string) :
  isWhiteSpace c = false -> trimEnd (String c s) = String c (trimEnd s).
Proof. intros H. simpl. rewrite H. destruct (trimEnd s); reflexivity. Qed.

Lemma trimEnd_noWhiteSpace_prefix (p s : string) :
  noWhiteSpace p = true -> trimEnd (p ++ s) = p ++ trimEnd s.
Proof.
  induction p as [|c p IH]; intros H; [reflexivity |].
  simpl in H. apply andb_true_iff in H. destruct H as [Hc Hp].
  apply negb_true_iff in Hc.
  change (String c p ++ s) with (String c (p ++ s)).
  rewrite (trimEnd_cons_nonws _ _ Hc), (IH Hp). reflexivity.
Qed.

Lemma trimEnd_append_nonempty (x y : string) :
  trimEnd y <> "" -> trimEnd (x ++ y) = x ++ trimEnd y.
Proof.
  intros H. induction x as [|c x IH]; [reflexivity |].
  simpl. rewrite IH. destruct (x ++ trimEnd y) eqn:E; [| reflexivity].
  destruct x; simpl in E; [contradiction | discriminate].
Qed.

(** What [trimStart] leaves of [a ++ y] still ends with [y] when [y] starts
    with a code unit that is no white space. *)
Lemma trimStart_keeps_tail (a : string) (c : ascii) (y : string) :
  isWhiteSpace c = false ->
  exists a', trimStart (a ++ String c y) = a' ++ String c y.
Proof.
  intros Hc. induction a as [|d a [a' IH]]; simpl.
  - rewrite Hc. exists "". reflexivity.
  - destruct (isWhiteSpace d).
    + exists a'. exact IH.
    + exists (String d a). reflexivity.
Qed.

Lemma trimStart_append (q r : string) :
  trimStart q <> "" -> trimStart (q ++ r) = trimStart q ++ r.
Proof.
  induction q as [|c q IH]; simpl; intros H; [contradiction |].
  destruct (isWhiteSpace c); [now apply IH | reflexivity].
Qed.

Lemma noWhiteSpace_toLowerCase (s : string) :
  noWhiteSpace (toLowerCase s) = noWhiteSpace s.
Proof.
  unfold noWhiteSpace. induction s as [|c s IH]; [reflexivity |].
  cbn [toLowerCase every]. now rewrite isWhiteSpace_toLowerCaseUnit, IH.
Qed.

(** A text whose lower-casing starts with [k] starts with a piece that
    lower-cases to [k]. *)
Lemma startsWith_toLowerCase_split (k x : string) :
  startsWith (toLowerCase x) k = true ->
  exists p r, x = p ++ r /\ toLowerCase p = k.
Proof.
  revert x. induction k as [|b k IH]; intros x H.
  - exists "", x. split; reflexivity.
  - destruct x as [|a x]; simpl in H; [discriminate |].
    apply andb_true_iff in H. destruct H as [Hab Hk].
    apply Ascii.eqb_eq in Hab. destruct (IH x Hk) as (p & r & -> & Hp).
    exists (String a p), r. split; [reflexivity |]. simpl. now rewrite Hab, Hp.
Qed.

Lemma trim_allWhiteSpace (s : string) : allWhiteSpace s = true -> trim s = "".
Proof. intros H. exact (trim_append_allWhiteSpace "" s H). Qed.

Lemma normalize_padding (a query b : string) :
  allWhiteSpace a = true -> allWhiteSpace b = true ->
  normalize (a ++ query ++ b) = normalize query.
Proof.
  intros Ha Hb. unfold normalize. f_equal.
  transitivity (trim (query ++ b)).
  - unfold trim. now rewrite (trimStart_allWhiteSpace a (query ++ b) Ha).
  - now apply trim_append_allWhiteSpace.
Qed.

(** An accepted text stays accepted whatever is written after it. *)
Lemma accepted_append (query rest : string) :
  startsWith (normalize query) "select" = true ->
  startsWith (normalize (query ++ rest)) "select" = true.
Proof.
  unfold normalize, trim. intros H.
  destruct (startsWith_toLowerCase_split _ _ H) as (p & r & Hpr & Hp).
  assert (Hnw : noWhiteSpace p = true)
    by (rewrite <- noWhiteSpace_toLowerCase, Hp; reflexivity).
  destruct (trimEnd_prefix (trimStart query)) as [b Hb].
  assert (Hne : trimStart query <> "").
  { intros E. rewrite E in Hpr. simpl in Hpr.
    destruct p; [discriminate Hp | discriminate Hpr]. }
  rewrite (trimStart_append query rest Hne), Hb, Hpr.
  rewrite !append_assoc, (trimEnd_noWhiteSpace_prefix p _ Hnw).
  rewrite toLowerCase_append, Hp. apply startsWith_append.
Qed.

(** Every text [limitedQuery] produces contains [limit] once normalised. *)
Lemma limitedQuery_includes_limit (query : string) (limit : Z) :
  includes (normalize (limitedQuery query limit)) "limit" = true.
Proof.
  unfold limitedQuery. destruct (includes (normalize query) "limit") eqn:E; [exact E |].
  set (d := Number_toString (safeLimit limit)).
  change (query ++ " LIMIT " ++ d) with (query ++ " " ++ String "L" ("IMIT " ++ d)).
  rewrite <- append_assoc.
  unfold normalize, trim.
  destruct (trimStart_keeps_tail (query ++ " ") "L" ("IMIT " ++ d) eq_refl) as [a' ->].
  assert (Hy : trimEnd (String "L" ("IMIT " ++ d)) = "LIMIT" ++ trimEnd (" " ++ d))
    by (exact (trimEnd_noWhiteSpace_prefix "LIMIT" (" " ++ d) eq_refl)).
  rewrite trimEnd_append_nonempty by (rewrite Hy; discriminate).
  rewrite Hy, !toLowerCase_append.
  apply includes_spec. eexists _, _. reflexivity.
Qed.

Section MoreOfTheQueryGuard.

Context {DB : Type} (sql_exec : DB -> string -> completion (list object) * DB).

(** X1.  Whatever the text, the limit and the behaviour of the storage,
    [executeSQLQuery] returns a string and throws nothing; it calls the
    storage at most once, and when it does, with [limitedQuery]. *)
Theorem executeSQLQuery_returns_text (query : string) (limit : Z) (w : World DB) :
  exists text : string,
    fst (executeSQLQuery sql_exec query limit w) = Normal (VStr text)
    /\ (snd (executeSQLQuery sql_exec query limit w) = w
        \/ sql_calls (snd (executeSQLQuery sql_exec query limit w))
           = (sql_calls w ++ [limitedQuery query limit])%list).
Proof.
  destruct (startsWith (normalize query) "select") eqn:H.
  - rewrite (executeSQLQuery_accepted sql_exec _ _ _ H). cbv zeta.
    destruct (sql_exec _ _) as [[rows | e] d]; cbn [fst snd sql_calls].
    + destruct (Nat.eqb (List.length rows) 0).
      * destruct (JSON_stringify_object
                    [("rowCount", VNum 0); ("rows", VArr []);
                     ("query", VStr (limitedQuery query limit));
                     ("message", VStr "Query executed successfully. No results returned.")])
          as (t & Ht & _).
        exists t. split; [unfold emptyResult; now rewrite Ht | now right].
      * destruct (JSON_stringify_object
                    [("rowCount", VNum (Z.of_nat (List.length rows)));
                     ("rows", VArr (map VObj rows));
                     ("query", VStr (limitedQuery query limit))])
          as (t & Ht & _).
        exists t. split; [unfold rowsResult; now rewrite Ht | now right].
    + eexists. split; [reflexivity | now right].
  - rewrite (executeSQLQuery_rejected sql_exec _ _ _ H).
    eexists. split; [reflexivity | now left].
Qed.

(** X2.  An empty text and a text of white space only are rejected, and the
    storage is not called. *)
Theorem executeSQLQuery_rejects_blank (query : string) (limit : Z) (w : World DB) :
  allWhiteSpace query = true ->
  executeSQLQuery sql_exec query limit w = (Normal (VStr rejection), w).
Proof.
  intros H. apply executeSQLQuery_rejected.
  unfold normalize. now rewrite (trim_allWhiteSpace query H).
Qed.

(** X3.  White space around the text changes neither the decision of the
    guard nor the test for an existing limit; it stays in the executed text,
    in front of an appended LIMIT. *)
Theorem guard_ignores_padding (a query b : string) (limit : Z) :
  allWhiteSpace a = true -> allWhiteSpace b = true ->
  startsWith (normalize (a ++ query ++ b)) "select"
  = startsWith (normalize query) "select"
  /\ includes (normalize (a ++ query ++ b)) "limit"
     = includes (normalize query) "limit"
  /\ limitedQuery (a ++ query ++ b) limit
     = (if includes (normalize query) "limit"
        then a ++ query ++ b
        else a ++ query ++ b ++ " LIMIT " ++ Number_toString (safeLimit limit)).
Proof.
  intros Ha Hb. unfold limitedQuery.
  rewrite (normalize_padding a query b Ha Hb).
  repeat split. destruct (includes _ _); [reflexivity |].
  now rewrite !append_assoc.
Qed.

(** X4.  The guard does not see letter case: two texts with the same
    lower-casing get the same decision and the same test for an existing
    limit. *)
Theorem guard_ignores_case (query1 query2 : string) :
  toLowerCase query1 = toLowerCase query2 ->
  startsWith (normalize query1) "select" = startsWith (normalize query2) "select"
  /\ includes (normalize query1) "limit" = includes (normalize query2) "limit".
Proof.
  intros H. rewrite !normalize_lower_first, H. split; reflexivity.
Qed.

(** X5.  The guard does not look past the first word: an accepted text
    followed by anything at all (a second statement, say) is accepted too
    and reaches the storage with what was added. *)
Theorem accepted_text_can_be_extended
        (query rest : string) (limit : Z) (w : World DB) :
  startsWith (normalize query) "select" = true ->
  startsWith (normalize (query ++ rest)) "select" = true
  /\ exists suffix : string,
       sql_calls (snd (executeSQLQuery sql_exec (query ++ rest) limit w))
       = (sql_calls w ++ [(query ++ rest ++ suffix)%string])%list.
Proof.
  intros H. pose proof (accepted_append query rest H) as H'.
  split; [exact H' |].
  rewrite (executeSQLQuery_accepted sql_exec _ _ _ H'). cbv zeta.
  destruct (sql_exec _ _) as [r d]. cbn [snd sql_calls].
  destruct (limitedQuery_cases (query ++ rest) limit) as [-> | ->].
  - exists "". now rewrite append_empty_r.
  - eexists. now rewrite append_assoc.
Qed.

(** X6.  Every text handed to the storage contains the word [limit] in
    some letter case, and the executed text, given to the tool again with
    any limit, is executed unchanged: no second LIMIT is appended. *)
Theorem limitedQuery_idempotent (query : string) (limit limit' : Z) :
  includes (normalize (limitedQuery query limit)) "limit" = true
  /\ limitedQuery (limitedQuery query limit) limit' = limitedQuery query limit.
Proof.
  pose proof (limitedQuery_includes_limit query limit) as H.
  split; [exact H |].
  unfold limitedQuery at 1. now rewrite H.
Qed.

(** X7.  When a LIMIT is appended its number is [limit] capped at 500,
    with 100 in the place of 0: it is never 0 and never above 500, and a
    negative limit is appended as it is.  The limit is taken from -2^53
    upwards, where the digits written are those JavaScript prints. *)
Theorem appended_limit (query : string) (limit : Z) (w : World DB) :
  startsWith (normalize query) "select" = true ->
  includes (normalize query) "limit" = false ->
  - 2 ^ 53 <= limit ->
  exists n : Z,
    sql_calls (snd (executeSQLQuery sql_exec query limit w))
    = (sql_calls w ++ [(query ++ " LIMIT " ++ Number_toString n)%string])%list
    /\ - 2 ^ 53 <= n <= 500 /\ n <> 0
    /\ (limit < 0 -> n = limit) /\ (1 <= limit <= 500 -> n = limit)
    /\ (500 < limit -> n = 500).
Proof.
  intros Hsel Hlim Hlow. exists (safeLimit limit). split.
  - rewrite (executeSQLQuery_accepted sql_exec _ _ _ Hsel). cbv zeta.
    destruct (sql_exec _ _) as [r d]. cbn [snd sql_calls].
    unfold limitedQuery. now rewrite Hlim.
  - unfold safeLimit, Math_min, or_default.
    destruct (Z.eqb_spec limit 0); lia.
Qed.


End MoreOfTheQueryGuard.

(** ** The stub tools *)

(** X9.  The weather reply carries the city as it was given: different
    cities get different replies. *)
Theorem getWeatherInformation_injective (city1 city2 : string) :
  city1 <> city2 -> getWeatherInformation city1 <> getWeatherInformation city2.
Proof.
  unfold getWeatherInformation. intros Hne H. apply Hne.
  apply (append_inv_tail city1 city2 " is sunny").
  simpl in H. now inversion H.
Qed.

(** ** JSON string literals *)

Lemma body_escapeUnit (c : ascii) (r : string) :
  JsonRead.body (Json.escapeUnit c ++ r)
  = JsonRead.cons_some (Some c) (JsonRead.body r).
Proof. destruct c as [[] [] [] [] [] [] [] []]; reflexivity. Qed.

Lemma body_escape (s : string) :
  JsonRead.body (Json.escape s ++ Json.dquote) = Some s.
Proof.
  induction s as [|c s IH]; [reflexivity |].
  cbn [Json.escape]. rewrite append_assoc, body_escapeUnit, IH. reflexivity.
Qed.

(** X16.  The string literal [JSON.stringify] writes for a text (the
    executed query in a result, a value in a row) reads back as that very
    text, so different texts have different literals. *)
Theorem quote_reads_back (s : string) :
  JsonRead.unquote (Json.quote s) = Some s
  /\ forall s' : string, Json.quote s' = Json.quote s -> s' = s.
Proof.
  assert (R : forall x, JsonRead.unquote (Json.quote x) = Some x).
  { intros x. unfold Json.quote. cbn. apply body_escape. }
  split; [apply R |].
  intros s' H. apply (f_equal JsonRead.unquote) in H.
  rewrite !R in H. now inversion H.
Qed.

(** ** The scheduling tools *)

Section MoreOfScheduling.

Context {Date : Type} (Date_toString : Date -> string) {Agent : Type}.
Context (agent_schedule :
           Agent -> Scheduling.ScheduleInput Date -> string -> string
           -> Scheduling.outcome unit * Agent).
Context (agent_getSchedules :
           Agent -> Scheduling.outcome (option (list object)) * Agent).
Context (agent_cancelSchedule : Agent -> string -> Scheduling.outcome bool * Agent).

(** Once [input] is chosen the tool makes one call of [agent.schedule] and
    turns either completion of it into a returned string. *)
Lemma scheduleTask_with_input (when : Scheduling.When Date) (description : string)
      (s : Scheduling.Session Date Agent) (input : Scheduling.ScheduleInput Date) :
  String.eqb (Scheduling.type when) "no-schedule" = false ->
  Scheduling.select_input when s = (Scheduling.Returns input, s) ->
  Scheduling.scheduleTask Date_toString agent_schedule when description s =
    let (r, a) := agent_schedule (Scheduling.agent s) input "executeTask" description in
    (Scheduling.Returns
       (VStr match r with
             | Scheduling.Returns _ => scheduled_text Date_toString when input
             | Scheduling.Throws e =>
                 "Error scheduling task: " ++ Scheduling.String_of_thrown e
             end),
     Scheduling.mkSession a
       (Scheduling.agent_calls s
        ++ [Scheduling.CallSchedule input "executeTask" description])).
Proof.
  intros Hno Hin.
  unfold Scheduling.scheduleTask. rewrite Hno.
  unfold Scheduling.bind at 1. rewrite Hin.
  unfold Scheduling.bind, Scheduling.try_catch, Scheduling.schedule, Scheduling.ret.
  destruct (agent_schedule _ _ _ _) as [[[] | e] a]; reflexivity.
Qed.

Lemma select_input_schedulable (when : Scheduling.When Date)
      (s : Scheduling.Session Date Agent) :
  Scheduling.type when = "scheduled" \/ Scheduling.type when = "delayed"
  \/ Scheduling.type when = "cron" ->
  String.eqb (Scheduling.type when) "no-schedule" = false
  /\ Scheduling.select_input when s
     = (Scheduling.Returns (field_of_tag (Scheduling.type when) when), s).
Proof.
  unfold Scheduling.select_input, field_of_tag.
  intros [H | [H | H]]; rewrite H; split; reflexivity.
Qed.

(** X10.  For the tags [scheduled], [delayed] and [cron] the tool calls
    [agent.schedule] exactly once, with the field of that tag, the callback
    [executeTask] and the description as payload.  It returns a string in
    either case: the confirmation when the call returns, and
    [Error scheduling task: ] with the thrown value when it throws. *)
Theorem scheduleTask_schedules (when : Scheduling.When Date) (description : string)
        (s : Scheduling.Session Date Agent) :
  Scheduling.type when = "scheduled" \/ Scheduling.type when = "delayed"
  \/ Scheduling.type when = "cron" ->
  let input := field_of_tag (Scheduling.type when) when in
  Scheduling.agent_calls
    (snd (Scheduling.scheduleTask Date_toString agent_schedule when description s))
  = (Scheduling.agent_calls s
     ++ [Scheduling.CallSchedule input "executeTask" description])%list
  /\ fst (Scheduling.scheduleTask Date_toString agent_schedule when description s)
     = Scheduling.Returns
         (VStr match fst (agent_schedule (Scheduling.agent s) input
                                         "executeTask" description) with
               | Scheduling.Returns _ =>
                   "Task scheduled for type " ++ Json.dquote ++ Scheduling.type when
                   ++ Json.dquote ++ " : "
                   ++ Scheduling.String_of_input Date_toString input
               | Scheduling.Throws e =>
                   "Error scheduling task: " ++ Scheduling.String_of_thrown e
               end).
Proof.
  intros H input. destruct (select_input_schedulable when s H) as [Hno Hin].
  rewrite (scheduleTask_with_input when description s input Hno Hin). cbv zeta.
  destruct (agent_schedule _ _ _ _) as [r a]. split; reflexivity.
Qed.

(** X11.  For any other tag nothing is scheduled and the session is left as
    it was: [no-schedule] is answered with a sentence, and a tag outside the
    schema makes the tool throw [Error("not a valid schedule input")] to its
    caller. *)
Theorem scheduleTask_without_schedule (when : Scheduling.When Date)
        (description : string) (s : Scheduling.Session Date Agent) :
  Scheduling.type when <> "scheduled" ->
  Scheduling.type when <> "delayed" ->
  Scheduling.type when <> "cron" ->
  Scheduling.scheduleTask Date_toString agent_schedule when description s
  = (if String.eqb (Scheduling.type when) "no-schedule"
     then Scheduling.Returns (VStr "Not a valid schedule input")
     else Scheduling.Throws (Scheduling.ErrorObject "Error" "not a valid schedule input"),
     s).
Proof.
  intros H1 H2 H3. unfold Scheduling.scheduleTask.
  destruct (String.eqb (Scheduling.type when) "no-schedule"); [reflexivity |].
  unfold Scheduling.bind at 1, Scheduling.select_input.
  apply String.eqb_neq in H1, H2, H3. rewrite H1, H2, H3. reflexivity.
Qed.

(** X12.  The tool does not check that the field of the tag is present: when
    it is absent, [agent.schedule] is still called, with [undefined], and if
    that call returns the tool confirms a task scheduled for [undefined]. *)
Theorem scheduleTask_absent_field (when : Scheduling.When Date) (description : string)
        (s : Scheduling.Session Date Agent) (a : Agent) :
  (Scheduling.type when = "scheduled" /\ Scheduling.date when = None)
  \/ (Scheduling.type when = "delayed" /\ Scheduling.delayInSeconds when = None)
  \/ (Scheduling.type when = "cron" /\ Scheduling.cron when = None) ->
  agent_schedule (Scheduling.agent s) Scheduling.InputUndefined "executeTask" description
  = (Scheduling.Returns tt, a) ->
  Scheduling.scheduleTask Date_toString agent_schedule when description s
  = (Scheduling.Returns
       (VStr ("Task scheduled for type " ++ Json.dquote ++ Scheduling.type when
              ++ Json.dquote ++ " : undefined")),
     Scheduling.mkSession a
       (Scheduling.agent_calls s
        ++ [Scheduling.CallSchedule Scheduling.InputUndefined "executeTask" description])).
Proof.
  intros H Hcall.
  assert (Htag : Scheduling.type when = "scheduled" \/ Scheduling.type when = "delayed"
                 \/ Scheduling.type when = "cron")
    by (destruct H as [[Ht _] | [[Ht _] | [Ht _]]]; rewrite Ht; auto).
  destruct (select_input_schedulable when s Htag) as [Hno Hin].
  assert (E : field_of_tag (Scheduling.type when) when = Scheduling.InputUndefined).
  { unfold field_of_tag. destruct H as [[-> ->] | [[-> ->] | [-> ->]]]; reflexivity. }
  rewrite E in Hin.
  rewrite (scheduleTask_with_input when description s _ Hno Hin). cbv zeta.
  rewrite Hcall. reflexivity.
Qed.

(** X13.  [getScheduledTasks] asks the agent once and throws nothing.  A
    non-empty list of schedules is returned as it is, in the same order; an
    empty or absent list gives a sentence; a failure of the agent gives
    [Error listing scheduled tasks: ] with the thrown value. *)
Theorem getScheduledTasks_outcome (s : Scheduling.Session Date Agent) :
  Scheduling.agent_calls (snd (Scheduling.getScheduledTasks agent_getSchedules s))
  = (Scheduling.agent_calls s ++ [Scheduling.CallGetSchedules])%list
  /\ fst (Scheduling.getScheduledTasks agent_getSchedules s)
     = Scheduling.Returns
         match fst (agent_getSchedules (Scheduling.agent s)) with
         | Scheduling.Returns (Some (task :: tasks)) => VArr (map VObj (task :: tasks))
         | Scheduling.Returns _ => VStr "No scheduled tasks found."
         | Scheduling.Throws e =>
             VStr ("Error listing scheduled tasks: " ++ Scheduling.String_of_thrown e)
         end.
Proof.
  unfold Scheduling.getScheduledTasks, Scheduling.try_catch, Scheduling.bind,
    Scheduling.getSchedules, Scheduling.ret.
  destruct (agent_getSchedules _) as [[[[| task tasks] |] | e] a]; split; reflexivity.
Qed.

(** X14.  Whenever the call of [agent.cancelSchedule] returns,
    [cancelScheduledTask] reports the task cancelled, whatever the call
    returned: also when the agent answers [false], nothing having been
    cancelled. *)
Theorem cancelScheduledTask_reports_success (taskId : string)
        (s : Scheduling.Session Date Agent) (cancelled : bool) (a : Agent) :
  agent_cancelSchedule (Scheduling.agent s) taskId = (Scheduling.Returns cancelled, a) ->
  Scheduling.cancelScheduledTask agent_cancelSchedule taskId s
  = (Scheduling.Returns (VStr ("Task " ++ taskId ++ " has been successfully canceled.")),
     Scheduling.mkSession a
       (Scheduling.agent_calls s ++ [Scheduling.CallCancelSchedule taskId])).
Proof.
  intros H.
  unfold Scheduling.cancelScheduledTask, Scheduling.try_catch, Scheduling.bind,
    Scheduling.cancelSchedule, Scheduling.ret.
  rewrite H. reflexivity.
Qed.

(** X15.  When the call of [agent.cancelSchedule] throws, the tool returns
    a string that names the task and carries the thrown value; nothing is
    thrown to the caller. *)
Theorem cancelScheduledTask_reports_failure (taskId : string)
        (s : Scheduling.Session Date Agent) (e : Scheduling.Exception) (a : Agent) :
  agent_cancelSchedule (Scheduling.agent s) taskId = (Scheduling.Throws e, a) ->
  fst (Scheduling.cancelScheduledTask agent_cancelSchedule taskId s)
  = Scheduling.Returns
      (VStr ("Error canceling task " ++ taskId ++ ": " ++ Scheduling.String_of_thrown e))
  /\ includes ("Error canceling task " ++ taskId ++ ": " ++ Scheduling.String_of_thrown e)
              taskId = true
  /\ includes ("Error canceling task " ++ taskId ++ ": " ++ Scheduling.String_of_thrown e)
              (Scheduling.String_of_thrown e) = true.
Proof.
  intros H.
  unfold Scheduling.cancelScheduledTask, Scheduling.try_catch, Scheduling.bind,
    Scheduling.cancelSchedule, Scheduling.ret.
  rewrite H. split; [reflexivity |]. split.
  - apply includes_spec. eexists _, _. reflexivity.
  - rewrite <- !append_assoc. apply includes_suffix.
Qed.

End MoreOfScheduling.

(** ** The further properties at concrete inputs *)

Lemma executeSQLQuery_rejects_blank_witness :
  allWhiteSpace (" " ++ Json.LF ++ "  ") = true
  /\ executeSQLQuery Demo.exec (" " ++ Json.LF ++ "  ") 100 Demo.world
     = (Normal (VStr rejection), Demo.world).
Proof.
  split; [reflexivity |].
  exact (executeSQLQuery_rejects_blank
           Demo.exec (" " ++ Json.LF ++ "  ") 100 Demo.world eq_refl).
Defined.

Lemma guard_ignores_padding_witness :
  allWhiteSpace "  " = true
  /\ allWhiteSpace (" " ++ Json.LF) = true
  /\ startsWith (normalize ("  " ++ "SELECT 1" ++ " " ++ Json.LF)) "select" = true
  /\ limitedQuery ("  " ++ "SELECT 1" ++ " " ++ Json.LF) 20
     = "  " ++ "SELECT 1" ++ (" " ++ Json.LF) ++ " LIMIT 20".
Proof.
  split; [reflexivity |]. split; [reflexivity |].
  destruct (guard_ignores_padding "  " "SELECT 1" (" " ++ Json.LF) 20 eq_refl eq_refl)
    as (H1 & _ & H3).
  split; [exact H1 | exact H3].
Defined.

Lemma guard_ignores_case_witness :
  toLowerCase "SeLeCt * FROM T LiMiT 3" = toLowerCase "select * from t limit 3"
  /\ startsWith (normalize "SeLeCt * FROM T LiMiT 3") "select" = true
  /\ includes (normalize "SeLeCt * FROM T LiMiT 3") "limit" = true.
Proof.
  split; [reflexivity |].
  exact (guard_ignores_case "SeLeCt * FROM T LiMiT 3" "select * from t limit 3" eq_refl).
Defined.

Lemma accepted_text_can_be_extended_witness :
  startsWith (normalize "select 1") "select" = true
  /\ startsWith (normalize ("select 1" ++ "; DROP TABLE contacts")) "select" = true
  /\ exists suffix : string,
       sql_calls (snd (executeSQLQuery Demo.exec ("select 1" ++ "; DROP TABLE contacts")
                                       100 Demo.world))
       = ["select 1" ++ "; DROP TABLE contacts" ++ suffix].
Proof.
  split; [reflexivity |].
  exact (accepted_text_can_be_extended
           Demo.exec "select 1" "; DROP TABLE contacts" 100 Demo.world eq_refl).
Defined.

Lemma appended_limit_witness :
  startsWith (normalize "select * from contacts") "select" = true
  /\ includes (normalize "select * from contacts") "limit" = false
  /\ - 2 ^ 53 <= -5
  /\ exists n : Z,
       sql_calls (snd (executeSQLQuery Demo.exec "select * from contacts" (-5) Demo.world))
       = ["select * from contacts" ++ " LIMIT " ++ Number_toString n]
       /\ - 2 ^ 53 <= n <= 500 /\ n <> 0
       /\ (-5 < 0 -> n = -5) /\ (1 <= -5 <= 500 -> n = -5) /\ (500 < -5 -> n = 500).
Proof.
  assert (H : - 2 ^ 53 <= -5) by lia.
  split; [reflexivity |]. split; [reflexivity |]. split; [exact H |].
  exact (appended_limit Demo.exec "select * from contacts" (-5) Demo.world
                        eq_refl eq_refl H).
Defined.

Lemma getWeatherInformation_injective_witness :
  "Paris" <> "Rome"
  /\ getWeatherInformation "Paris" <> getWeatherInformation "Rome".
Proof.
  assert (H : "Paris" <> "Rome") by discriminate.
  split; [exact H | exact (getWeatherInformation_injective "Paris" "Rome" H)].
Defined.

Lemma scheduleTask_schedules_witness :
  let when := Scheduling.mkWhen "delayed" None (Some 30) None in
  (Scheduling.type when = "scheduled" \/ Scheduling.type when = "delayed"
   \/ Scheduling.type when = "cron")
  /\ Scheduling.agent_calls
       (snd (Scheduling.scheduleTask DemoAgent.Date_toString DemoAgent.agent_schedule
                                     when "water the plants" DemoAgent.session))
     = [Scheduling.CallSchedule (Scheduling.InputNumber 30) "executeTask" "water the plants"]
  /\ fst (Scheduling.scheduleTask DemoAgent.Date_toString DemoAgent.agent_schedule
                                  when "water the plants" DemoAgent.session)
     = Scheduling.Returns
         (VStr ("Task scheduled for type " ++ Json.dquote ++ "delayed" ++ Json.dquote
                ++ " : 30")).
Proof.
  intros when.
  assert (H : Scheduling.type when = "scheduled" \/ Scheduling.type when = "delayed"
              \/ Scheduling.type when = "cron") by (right; left; reflexivity).
  split; [exact H |].
  exact (scheduleTask_schedules DemoAgent.Date_toString DemoAgent.agent_schedule
                                when "water the plants" DemoAgent.session H).
Defined.

Lemma scheduleTask_without_schedule_witness :
  let when : Scheduling.When DemoAgent.Date :=
    Scheduling.mkWhen "no-schedule" None None None in
  Scheduling.type when <> "scheduled"
  /\ Scheduling.type when <> "delayed"
  /\ Scheduling.type when <> "cron"
  /\ Scheduling.scheduleTask DemoAgent.Date_toString DemoAgent.agent_schedule
                             when "nothing to do" DemoAgent.session
     = (Scheduling.Returns (VStr "Not a valid schedule input"), DemoAgent.session).
Proof.
  intros when.
  assert (H1 : Scheduling.type when <> "scheduled") by discriminate.
  assert (H2 : Scheduling.type when <> "delayed") by discriminate.
  assert (H3 : Scheduling.type when <> "cron") by discriminate.
  split; [exact H1 |]. split; [exact H2 |]. split; [exact H3 |].
  exact (scheduleTask_without_schedule DemoAgent.Date_toString DemoAgent.agent_schedule
                                       when "nothing to do" DemoAgent.session H1 H2 H3).
Defined.

Lemma scheduleTask_absent_field_witness :
  let when : Scheduling.When DemoAgent.Date := Scheduling.mkWhen "cron" None None None in
  ((Scheduling.type when = "scheduled" /\ Scheduling.date when = None)
   \/ (Scheduling.type when = "delayed" /\ Scheduling.delayInSeconds when = None)
   \/ (Scheduling.type when = "cron" /\ Scheduling.cron when = None))
  /\ DemoAgent.agent_schedule [] Scheduling.InputUndefined "executeTask" "daily report"
     = (Scheduling.Returns tt, ["0"])
  /\ Scheduling.scheduleTask DemoAgent.Date_toString DemoAgent.agent_schedule
                             when "daily report" DemoAgent.session
     = (Scheduling.Returns
          (VStr ("Task scheduled for type " ++ Json.dquote ++ "cron" ++ Json.dquote
                 ++ " : undefined")),
        Scheduling.mkSession ["0"]
          [Scheduling.CallSchedule Scheduling.InputUndefined "executeTask" "daily report"]).
Proof.
  intros when.
  assert (H : (Scheduling.type when = "scheduled" /\ Scheduling.date when = None)
              \/ (Scheduling.type when = "delayed"
                  /\ Scheduling.delayInSeconds when = None)
              \/ (Scheduling.type when = "cron" /\ Scheduling.cron when = None))
    by (right; right; split; reflexivity).
  split; [exact H |]. split; [reflexivity |].
  exact (scheduleTask_absent_field DemoAgent.Date_toString DemoAgent.agent_schedule
                                   when "daily report" DemoAgent.session ["0"] H eq_refl).
Defined.

Lemma cancelScheduledTask_reports_success_witness :
  DemoAgent.agent_cancelSchedule [] "42" = (Scheduling.Returns false, [])
  /\ Scheduling.cancelScheduledTask DemoAgent.agent_cancelSchedule "42" DemoAgent.session
     = (Scheduling.Returns (VStr "Task 42 has been successfully canceled."),
        Scheduling.mkSession [] [Scheduling.CallCancelSchedule "42"]).
Proof.
  split; [reflexivity |].
  exact (cancelScheduledTask_reports_success
           DemoAgent.agent_cancelSchedule "42" DemoAgent.session false [] eq_refl).
Defined.

Lemma cancelScheduledTask_reports_failure_witness :
  DemoAgent.agent_cancelSchedule [] "locked"
  = (Scheduling.Throws (Scheduling.ThrownValue (VStr "schedule is locked")), [])
  /\ fst (Scheduling.cancelScheduledTask DemoAgent.agent_cancelSchedule "locked"
                                         DemoAgent.session)
     = Scheduling.Returns (VStr "Error canceling task locked: schedule is locked").
Proof.
  split; [reflexivity |].
  exact (proj1 (cancelScheduledTask_reports_failure
                  DemoAgent.agent_cancelSchedule "locked" DemoAgent.session
                  (Scheduling.ThrownValue (VStr "schedule is locked")) [] eq_refl)).
Defined.

(** Runs of the scheduling tools on the demo agent. *)
Example run_schedule_bad_cron :
  fst (Scheduling.scheduleTask DemoAgent.Date_toString DemoAgent.agent_schedule
         (Scheduling.mkWhen "cron" None None (Some "bad")) "nightly" DemoAgent.session)
  = Scheduling.Returns (VStr "Error scheduling task: TypeError: invalid cron").
Proof. reflexivity. Qed.

Example run_schedule_unknown_tag :
  Scheduling.scheduleTask DemoAgent.Date_toString DemoAgent.agent_schedule
    (Scheduling.mkWhen "weekly" None None None) "report" DemoAgent.session
  = (Scheduling.Throws (Scheduling.ErrorObject "Error" "not a valid schedule input"),
     DemoAgent.session).
Proof. reflexivity. Qed.

Example run_list_after_scheduling :
  fst (Scheduling.getScheduledTasks DemoAgent.agent_getSchedules
         (snd (Scheduling.scheduleTask DemoAgent.Date_toString DemoAgent.agent_schedule
                 (Scheduling.mkWhen "scheduled" (Some 1700000000) None None)
                 "call Ada" DemoAgent.session)))
  = Scheduling.Returns (VArr [VObj [("id", VStr "0")]]).
Proof. reflexivity. Qed.

Example run_list_nothing :
  fst (Scheduling.getScheduledTasks DemoAgent.agent_getSchedules DemoAgent.session)
  = Scheduling.Returns (VStr "No scheduled tasks found.").
Proof. reflexivity. Qed.

(** ** The limit and the run *)

(** X17.  The requested limit reaches the run only through the effective
    limit: two limits with the same effective limit (0 and 100, or any two
    above 500) give the same result, the same calls and the same storage. *)
Theorem executeSQLQuery_same_effective_limit
        {DB : Type} (sql_exec : DB -> string -> completion (list object) * DB)
        (query : string) (limit limit' : Z) (w : World DB) :
  safeLimit limit = safeLimit limit' ->
  executeSQLQuery sql_exec query limit w = executeSQLQuery sql_exec query limit' w.
Proof.
  intros H.
  assert (E : limitedQuery query limit = limitedQuery query limit')
    by (unfold limitedQuery; now rewrite H).
  destruct (startsWith (normalize query) "select") eqn:Hsel.
  - rewrite !(executeSQLQuery_accepted sql_exec _ _ _ Hsel). now rewrite E.
  - now rewrite !(executeSQLQuery_rejected sql_exec _ _ _ Hsel).
Qed.

Lemma executeSQLQuery_same_effective_limit_witness :
  safeLimit 0 = safeLimit (parse_limit None)
  /\ executeSQLQuery_tool Demo.exec "select * from contacts" (Some 0) Demo.world
     = executeSQLQuery_tool Demo.exec "select * from contacts" None Demo.world
  /\ sql_calls (snd (executeSQLQuery_tool Demo.exec "select * from contacts" (Some 0)
                                          Demo.world))
     = ["select * from contacts LIMIT 100"].
Proof.
  split; [reflexivity |]. split; [| reflexivity].
  exact (executeSQLQuery_same_effective_limit
           Demo.exec "select * from contacts" 0 (parse_limit None) Demo.world eq_refl).
Defined.

(** ** The effective limit on fractional numbers *)

Lemma Qmin_inject_Z (a b : Z) :
  (Qmin (inject_Z a) (inject_Z b) == inject_Z (Z.min a b))%Q.
Proof.
  destruct (Z.le_gt_cases a b) as [H | H].
  - rewrite (Z.min_l _ _ H). apply Q.min_l. unfold Qle, inject_Z. simpl. lia.
  - assert (H' : b <= a) by lia.
    rewrite (Z.min_r _ _ H'). apply Q.min_r. unfold Qle, inject_Z. simpl. lia.
Qed.

(** On integers [safeLimit_number] is [safeLimit]. *)
Lemma safeLimit_number_integer (limit : Z) :
  (safeLimit_number (inject_Z limit) == inject_Z (safeLimit limit))%Q.
Proof.
  unfold safeLimit_number, safeLimit, Math_min, or_default.
  assert (E : Qeq_bool (inject_Z limit) 0 = (limit =? 0)).
  { unfold Qeq_bool, inject_Z. simpl. f_equal. lia. }
  rewrite E. change 100%Q with (inject_Z 100). change 500%Q with (inject_Z 500).
  destruct (limit =? 0); apply Qmin_inject_Z.
Qed.

(** What C2 (amended) says holds of fractional limits as well: a positive
    limit, [0.5] say, gives [min(limit, 500)], above 0 and at most 500. *)
Lemma safeLimit_number_positive (limit : Q) :
  (0 < limit)%Q ->
  (safeLimit_number limit == Qmin limit 500)%Q
  /\ (0 < safeLimit_number limit)%Q /\ (safeLimit_number limit <= 500)%Q.
Proof.
  intros H. unfold safeLimit_number.
  assert (E : Qeq_bool limit 0 = false).
  { destruct (Qeq_bool limit 0) eqn:B; [| reflexivity].
    apply Qeq_bool_iff in B. rewrite B in H. discriminate H. }
  rewrite E. split; [reflexivity |]. split.
  - apply Q.min_glb_lt; [exact H | reflexivity].
  - apply Q.le_min_r.
Qed.
